(** * Process discovery and target reconciliation of the tracer

    A shallow embedding of the tracer's discovery code (the cgroup path
    normalizer, the container index builder, the procfs enumerators and
    the reconciliation passes) together with the parts of the Go standard
    library it calls ([strings], [path], [path/filepath], [unicode],
    [unicode/utf8], [strconv], [net/url]).

    Go strings are immutable byte sequences: they are modelled as
    [list ascii].  Maps are [gmap]s.  Calls into the capture engine are
    recorded in an explicit call history.  Calls to the logger (zerolog)
    have no effect on any value computed here and are left out. *)

From Stdlib Require Import ZArith Lia Ascii String.
From stdpp Require Import base option list gmap strings.

Local Open Scope Z_scope.

(** ** Go strings *)

Abbreviation gostring := (list ascii).

(** A string literal of the source. *)
Definition str (s : string) : gostring := list_ascii_of_string s.
Coercion str : string >-> list.

(** The literal "\n". *)
Definition newline : gostring := ["010"%char].

(** The numeric value of a byte. *)
Definition byte (c : ascii) : Z := Z.of_N (N_of_ascii c).

(** [len(s)] *)
Definition len {A} (s : list A) : Z := Z.of_nat (length s).

(** [s[i:]], [s[:j]] and [s[i:j]] for indices in range. *)
Definition from {A} (s : list A) (i : Z) : list A := drop (Z.to_nat i) s.
Definition upto {A} (s : list A) (j : Z) : list A := take (Z.to_nat j) s.
Definition slice {A} (s : list A) (i j : Z) : list A := upto (from s i) (j - i).

Definition in_range (lo hi : string) (c : ascii) : bool :=
  match lo, hi with
  | String l EmptyString, String h EmptyString => (byte l <=? byte c) && (byte c <=? byte h)
  | _, _ => false
  end.

Definition is_digit (c : ascii) : bool := in_range "0" "9" c.
Definition is_lower (c : ascii) : bool := in_range "a" "z" c.
Definition is_upper (c : ascii) : bool := in_range "A" "Z" c.
Definition is_alnum (c : ascii) : bool := is_lower c || is_upper c || is_digit c.

(** No byte of [s] is one of the bytes of [set]. *)
Definition none_of (set s : gostring) : bool :=
  forallb (λ c, negb (bool_decide (c ∈ set))) s.

(** [c] is one of the bytes of the literal [set]. *)
Definition one_of (set : string) (c : ascii) : bool :=
  bool_decide (c ∈ str set).

(** Go's [(value, error)] results. *)
Inductive result (E A : Type) : Type :=
  | Ok (a : A)
  | Err (e : E).
Arguments Ok {E A} a.
Arguments Err {E A} e.

(** ** Package unicode/utf8 *)
Module Utf8.

Definition RuneError : Z := 65533.
Definition RuneSelf : Z := 128.
Definition UTFMax : Z := 4.

(** The table [first]: information about the first byte of an encoding.
    [0xF0] is ASCII, [0xF1] is invalid; otherwise the low three bits give
    the size and the high four bits index [acceptRanges]. *)
Definition as_ : Z := 240.
Definition xx : Z := 241.
Definition first (b : Z) : Z :=
  if b <? 128 then as_
  else if b <? 194 then xx
  else if b <? 224 then 2        (* s1 *)
  else if b =? 224 then 19       (* s2 *)
  else if b <? 237 then 3        (* s3 *)
  else if b =? 237 then 35       (* s4 *)
  else if b <? 240 then 3        (* s3 *)
  else if b =? 240 then 52       (* s5 *)
  else if b <? 244 then 4        (* s6 *)
  else if b =? 244 then 68       (* s7 *)
  else xx.

Definition locb : Z := 128.
Definition hicb : Z := 191.

(** [acceptRanges[i]] as a pair (lo, hi). *)
Definition acceptRanges (i : Z) : Z * Z :=
  if i =? 0 then (locb, hicb)
  else if i =? 1 then (160, hicb)
  else if i =? 2 then (locb, 159)
  else if i =? 3 then (144, hicb)
  else if i =? 4 then (locb, 143)
  else (0, 0).

Definition at_ (s : gostring) (i : nat) : Z :=
  match s !! i with Some c => byte c | None => 0 end.

(** [utf8.DecodeRuneInString]: the first rune of [s] and its width. *)
Definition DecodeRuneInString (s : gostring) : Z * Z :=
  let n := len s in
  if n <? 1 then (RuneError, 0)
  else
    let s0 := at_ s 0 in
    let x := first s0 in
    if as_ <=? x then
      (if x =? xx then RuneError else s0, 1)
    else
      let sz := Z.land x 7 in
      let '(lo, hi) := acceptRanges (Z.shiftr x 4) in
      if n <? sz then (RuneError, 1)
      else
        let s1 := at_ s 1 in
        if (s1 <? lo) || (hi <? s1) then (RuneError, 1)
        else if sz <=? 2 then
          (Z.lor (Z.shiftl (Z.land s0 31) 6) (Z.land s1 63), 2)
        else
          let s2 := at_ s 2 in
          if (s2 <? locb) || (hicb <? s2) then (RuneError, 1)
          else if sz <=? 3 then
            (Z.lor (Z.lor (Z.shiftl (Z.land s0 15) 12)
                          (Z.shiftl (Z.land s1 63) 6))
                   (Z.land s2 63), 3)
          else
            let s3 := at_ s 3 in
            if (s3 <? locb) || (hicb <? s3) then (RuneError, 1)
            else
              (Z.lor (Z.lor (Z.lor (Z.shiftl (Z.land s0 7) 18)
                                   (Z.shiftl (Z.land s1 63) 12))
                            (Z.shiftl (Z.land s2 63) 6))
                     (Z.land s3 63), 4).

(** [utf8.RuneStart]: the byte is not a continuation byte. *)
Definition RuneStart (b : Z) : bool := negb (Z.land b 192 =? 128).

(** The backward scan of [DecodeLastRuneInString]:
    [for start--; start >= lim; start-- { if RuneStart(s[start]) break }]. *)
Fixpoint scan_back (s : gostring) (lim : Z) (fuel : nat) (start : Z) : Z :=
  match fuel with
  | O => start
  | S fuel' =>
      if start <? lim then start
      else if RuneStart (at_ s (Z.to_nat start)) then start
      else scan_back s lim fuel' (start - 1)
  end.

(** [utf8.DecodeLastRuneInString]: the last rune of [s] and its width. *)
Definition DecodeLastRuneInString (s : gostring) : Z * Z :=
  let end_ := len s in
  if end_ =? 0 then (RuneError, 0)
  else
    let start := end_ - 1 in
    let r := at_ s (Z.to_nat start) in
    if r <? RuneSelf then (r, 1)
    else
      let lim := Z.max 0 (end_ - UTFMax) in
      let start := scan_back s lim (Z.to_nat UTFMax) (start - 1) in
      let start := Z.max 0 start in
      let '(r, size) := DecodeRuneInString (slice s start end_) in
      if negb (start + size =? end_) then (RuneError, 1) else (r, size).

End Utf8.

(** ** Package unicode *)
Module Unicode.

(** [unicode.IsSpace]: Latin-1 white space, then the [White_Space] range
    table. *)
Definition IsSpace (r : Z) : bool :=
  if r <=? 255 then
    (r =? 9) || (r =? 10) || (r =? 11) || (r =? 12) || (r =? 13)
    || (r =? 32) || (r =? 133) || (r =? 160)
  else
    (r =? 5760) || ((8192 <=? r) && (r <=? 8202)) || (r =? 8232)
    || (r =? 8233) || (r =? 8239) || (r =? 8287) || (r =? 12288).

End Unicode.

(** ** Package strings *)
Module GoStrings.

(** [strings.HasPrefix] *)
Fixpoint HasPrefix (s prefix : gostring) {struct prefix} : bool :=
  match prefix with
  | [] => true
  | p :: prefix' =>
      match s with
      | [] => false
      | c :: s' => bool_decide (c = p) && HasPrefix s' prefix'
      end
  end.

(** [strings.HasSuffix] *)
Definition HasSuffix (s suffix : gostring) : bool :=
  (len suffix <=? len s) && bool_decide (from s (len s - len suffix) = suffix).

(** [strings.Index]: the index of the first instance of [substr], or -1. *)
Fixpoint Index (s substr : gostring) : Z :=
  if HasPrefix s substr then 0
  else match s with
       | [] => -1
       | _ :: s' => let i := Index s' substr in if i <? 0 then -1 else i + 1
       end.

(** [strings.LastIndex]: the index of the last instance of [substr], or -1. *)
Fixpoint LastIndex (s substr : gostring) : Z :=
  match s with
  | [] => if HasPrefix s substr then 0 else -1
  | _ :: s' =>
      let i := LastIndex s' substr in
      if 0 <=? i then i + 1
      else if HasPrefix s substr then 0 else -1
  end.

(** [strings.Contains] *)
Definition Contains (s substr : gostring) : bool := 0 <=? Index s substr.

(** [strings.Count] for a non-empty [substr]: non-overlapping instances. *)
Fixpoint count_go (substr : gostring) (skip : nat) (s : gostring) : Z :=
  match s with
  | [] => 0
  | _ :: s' =>
      match skip with
      | S k => count_go substr k s'
      | O => if HasPrefix s substr
             then 1 + count_go substr (length substr - 1) s'
             else count_go substr 0 s'
      end
  end.
Definition Count (s substr : gostring) : Z := count_go substr 0 s.

(** [strings.Split] for a non-empty separator (the source passes the
    one-byte separators "\n", ":" and "-"): the pieces between the
    non-overlapping instances of [sep], found left to right.  [skip]
    counts the bytes of a located separator still to be passed over. *)
Fixpoint split_go (sep : gostring) (skip : nat) (s : gostring) : list gostring :=
  match s with
  | [] => [[]]
  | c :: s' =>
      match skip with
      | S k => split_go sep k s'
      | O =>
          if HasPrefix s sep then [] :: split_go sep (length sep - 1) s'
          else match split_go sep 0 s' with
               | piece :: pieces => (c :: piece) :: pieces
               | [] => [[c]]
               end
      end
  end.
Definition Split (s sep : gostring) : list gostring := split_go sep 0 s.

(** [strings.Cut] *)
Definition Cut (s sep : gostring) : gostring * gostring * bool :=
  let i := Index s sep in
  if 0 <=? i then (upto s i, from s (i + len sep), true)
  else (s, [], false).

(** [strings.TrimSuffix] *)
Definition TrimSuffix (s suffix : gostring) : gostring :=
  if HasSuffix s suffix then upto s (len s - len suffix) else s.

(** [indexFunc]: the index of the first rune [r] of [s] with
    [f r = truth], or -1.  The loop is [for i, r := range s], which
    decodes like [utf8.DecodeRuneInString]; [skip] counts the remaining
    bytes of the rune being passed over. *)
Fixpoint indexFunc_go (f : Z → bool) (truth : bool) (skip : nat) (i : Z)
    (s : gostring) : Z :=
  match s with
  | [] => -1
  | _ :: s' =>
      match skip with
      | S k => indexFunc_go f truth k (i + 1) s'
      | O =>
          let '(r, size) := Utf8.DecodeRuneInString s in
          if bool_decide (f r = truth) then i
          else indexFunc_go f truth (Z.to_nat size - 1) (i + 1) s'
      end
  end.
Definition indexFunc (s : gostring) (f : Z → bool) (truth : bool) : Z :=
  indexFunc_go f truth 0 0 s.

(** [lastIndexFunc]: the loop
    [for i := len(s); i > 0; { r, size := DecodeLastRuneInString(s[0:i]); i -= size; ... }];
    every round lowers [i], so [length s] rounds are enough. *)
Fixpoint lastIndexFunc_go (f : Z → bool) (truth : bool) (s : gostring)
    (fuel : nat) (i : Z) : Z :=
  match fuel with
  | O => -1
  | S fuel' =>
      if i <=? 0 then -1
      else
        let '(r, size) := Utf8.DecodeLastRuneInString (upto s i) in
        let i := i - size in
        if bool_decide (f r = truth) then i
        else lastIndexFunc_go f truth s fuel' i
  end.
Definition lastIndexFunc (s : gostring) (f : Z → bool) (truth : bool) : Z :=
  lastIndexFunc_go f truth s (length s) (len s).

(** [strings.TrimLeftFunc] *)
Definition TrimLeftFunc (s : gostring) (f : Z → bool) : gostring :=
  let i := indexFunc s f false in
  if i =? -1 then [] else from s i.

(** [strings.TrimRightFunc] *)
Definition TrimRightFunc (s : gostring) (f : Z → bool) : gostring :=
  let i := lastIndexFunc s f false in
  let i :=
    if (0 <=? i) && (Utf8.RuneSelf <=? Utf8.at_ s (Z.to_nat i))
    then i + snd (Utf8.DecodeRuneInString (from s i))
    else i + 1 in
  upto s i.

(** [strings.TrimFunc] *)
Definition TrimFunc (s : gostring) (f : Z → bool) : gostring :=
  TrimRightFunc (TrimLeftFunc s f) f.

(** The table [asciiSpace]. *)
Definition asciiSpace (c : ascii) : bool :=
  let b := byte c in
  (b =? 9) || (b =? 10) || (b =? 11) || (b =? 12) || (b =? 13) || (b =? 32).

(** Outcome of a loop that may return from the enclosing function. *)
Inductive scan :=
  | Return (r : gostring)
  | Break (i : Z).

(** First loop of [TrimSpace]: the first ASCII non-space byte, falling
    back to [TrimFunc] on a non-ASCII byte. *)
Fixpoint trimSpace_start (s rest : gostring) (start : Z) : scan :=
  match rest with
  | [] => Break start
  | c :: rest' =>
      if Utf8.RuneSelf <=? byte c
      then Return (TrimFunc (from s start) Unicode.IsSpace)
      else if asciiSpace c then trimSpace_start s rest' (start + 1)
      else Break start
  end.

(** Second loop of [TrimSpace], from the end down to [start]; [rrest] is
    [s[start:stop]] read backwards. *)
Fixpoint trimSpace_stop (s : gostring) (start : Z) (rrest : gostring)
    (stop : Z) : gostring :=
  match rrest with
  | [] => slice s start stop
  | c :: rrest' =>
      if Utf8.RuneSelf <=? byte c
      then TrimRightFunc (slice s start stop) Unicode.IsSpace
      else if asciiSpace c then trimSpace_stop s start rrest' (stop - 1)
      else slice s start stop
  end.

(** [strings.TrimSpace] *)
Definition TrimSpace (s : gostring) : gostring :=
  match trimSpace_start s s 0 with
  | Return r => r
  | Break start => trimSpace_stop s start (reverse (from s start)) (len s)
  end.

(** [strings.Join] with a one-byte separator. *)
Fixpoint Join (lines : list gostring) (c : ascii) : gostring :=
  match lines with
  | [] => []
  | [line] => line
  | line :: lines' => line ++ c :: Join lines' c
  end.

(** A byte that is ASCII and is not white space. *)
Definition solid (c : ascii) : bool :=
  (byte c <? Utf8.RuneSelf) && negb (asciiSpace c).

End GoStrings.

(** ** Packages path and path/filepath *)
Module GoPath.

(** The loop [for len(path) > 0 && path[len(path)-1] == '/'] of
    [path.Base], which removes the trailing slashes. *)
Fixpoint stripTrailingSlashes (path : gostring) : gostring :=
  match path with
  | [] => []
  | c :: path' =>
      match stripTrailingSlashes path' with
      | [] => if bool_decide (c = "/"%char) then [] else [c]
      | kept => c :: kept
      end
  end.

(** [path.Base] *)
Definition Base (path : gostring) : gostring :=
  if bool_decide (path = []) then str "."
  else
    let path := stripTrailingSlashes path in
    let i := GoStrings.LastIndex path "/" in
    let path := if 0 <=? i then from path (i + 1) else path in
    if bool_decide (path = []) then str "/" else path.

(** The backward loop of [filepath.Ext] (Unix path separator); [acc] is
    the part of the path already passed. *)
Fixpoint ext_scan (rpath acc : gostring) : gostring :=
  match rpath with
  | [] => []
  | c :: rpath' =>
      if bool_decide (c = "/"%char) then []
      else if bool_decide (c = "."%char) then c :: acc
      else ext_scan rpath' (c :: acc)
  end.

(** [filepath.Ext] *)
Definition Ext (path : gostring) : gostring := ext_scan (reverse path) [].

End GoPath.


(** ** Package strconv *)
Module Strconv.

Inductive NumError :=
  | ErrSyntax
  | ErrRange.

(** [int] has 64 bits on the platforms the tracer runs on. *)
Definition intSize : Z := 64.
Definition maxUint64 : Z := 2 ^ 64 - 1.

(** The digit loop of the fast path of [Atoi]; [ch -= '0'] wraps around
    in a byte. *)
Fixpoint atoi_fast (s : gostring) (n : Z) : result NumError Z :=
  match s with
  | [] => Ok n
  | ch :: s' =>
      let ch := (byte ch - 48) mod 256 in
      if 9 <? ch then Err ErrSyntax else atoi_fast s' (n * 10 + ch)
  end.

(** The digit loop of [ParseUint(s, 10, 64)]. *)
Fixpoint parseUint_go (s : gostring) (n : Z) : result NumError Z :=
  match s with
  | [] => Ok n
  | c :: s' =>
      if negb (is_digit c) then Err ErrSyntax
      else
        let d := byte c - 48 in
        if maxUint64 / 10 + 1 <=? n then Err ErrRange
        else
          let n := n * 10 in
          let n1 := (n + d) mod 2 ^ 64 in
          if (n1 <? n) || (maxUint64 <? n1) then Err ErrRange
          else parseUint_go s' n1
  end.

Definition ParseUint (s : gostring) : result NumError Z :=
  if bool_decide (s = []) then Err ErrSyntax else parseUint_go s 0.

(** [ParseInt(s, 10, 0)] *)
Definition ParseInt (s : gostring) : result NumError Z :=
  match s with
  | [] => Err ErrSyntax
  | s0 :: s' =>
      let neg := bool_decide (s0 = "-"%char) in
      let s := if bool_decide (s0 = "+"%char) || neg then s' else s in
      match ParseUint s with
      | Err ErrSyntax => Err ErrSyntax
      | Err ErrRange => Err ErrRange
      | Ok un =>
          let cutoff := 2 ^ (intSize - 1) in
          if negb neg && (cutoff <=? un) then Err ErrRange
          else if neg && (cutoff <? un) then Err ErrRange
          else Ok (if neg then - un else un)
      end
  end.

(** [strconv.Atoi] *)
Definition Atoi (s : gostring) : result NumError Z :=
  let sLen := len s in
  if (0 <? sLen) && (sLen <? 19) then
    match s with
    | [] => Err ErrSyntax
    | s0 :: s' =>
        let signed := bool_decide (s0 = "-"%char) || bool_decide (s0 = "+"%char) in
        let digits := if signed then s' else s in
        if signed && (len digits <? 1) then Err ErrSyntax
        else
          match atoi_fast digits 0 with
          | Err e => Err e
          | Ok n => Ok (if bool_decide (s0 = "-"%char) then - n else n)
          end
    end
  else ParseInt s.

End Strconv.

(** The conversion [uint32(n)] of an [int]. *)
Definition uint32 (n : Z) : Z := n mod 2 ^ 32.


(** ** Package net/url

    [url.Parse] as far as its error and the fields [Scheme], [Opaque],
    [User], [Host], [Path], [ForceQuery], [RawQuery], [Fragment] and
    [OmitHost] of its result go.  [RawPath] and [RawFragment], which only
    record how the input was escaped, are left out. *)
Module Url.
Import GoStrings.

Inductive Error :=
  | InvalidControlCharacter
  | EmptyURL
  | MissingProtocolScheme
  | InvalidURIForRequest
  | FirstPathSegmentColon
  | MissingBracket
  | InvalidPort (port : gostring)
  | InvalidUserinfo
  | EscapeError (s : gostring)
  | InvalidHostError (s : gostring).

Record Userinfo := {
  username : gostring;
  password : gostring;
  passwordSet : bool;
}.

Record URL := {
  Scheme : gostring;
  Opaque : gostring;
  User : option Userinfo;
  Host : gostring;
  Path : gostring;
  OmitHost : bool;
  ForceQuery : bool;
  RawQuery : gostring;
  Fragment : gostring;
}.

(** [new(URL)] *)
Definition zero : URL :=
  {| Scheme := []; Opaque := []; User := None; Host := []; Path := [];
     OmitHost := false; ForceQuery := false; RawQuery := []; Fragment := [] |}.

Inductive encoding :=
  | encodePath
  | encodePathSegment
  | encodeHost
  | encodeZone
  | encodeUserPassword
  | encodeQueryComponent
  | encodeFragment.

Global Instance encoding_eq_dec : EqDecision encoding.
Proof. solve_decision. Defined.

Definition ishex (c : ascii) : bool :=
  is_digit c || in_range "a" "f" c || in_range "A" "F" c.

Definition unhex (c : ascii) : Z :=
  if is_digit c then byte c - 48
  else if in_range "a" "f" c then byte c - 97 + 10
  else if in_range "A" "F" c then byte c - 65 + 10
  else 0.

(** The byte [unhex(h1)<<4 | unhex(h2)]. *)
Definition unhex2 (h1 h2 : ascii) : ascii :=
  ascii_of_N (Z.to_N (Z.lor (Z.shiftl (unhex h1) 4) (unhex h2))).

(** [shouldEscape] *)
Definition shouldEscape (c : ascii) (mode : encoding) : bool :=
  if is_alnum c then false
  else if bool_decide (mode = encodeHost ∨ mode = encodeZone)
          && (one_of "!$&'()*+,;=:[]<>" c || bool_decide (c = "034"%char))
  then false
  else if one_of "-_.~" c then false
  else if one_of "$&+,/:;=?@" c
          && bool_decide (mode = encodePath) then bool_decide (c = "?"%char)
  else if one_of "$&+,/:;=?@" c
          && bool_decide (mode = encodePathSegment) then one_of "/;,?" c
  else if one_of "$&+,/:;=?@" c
          && bool_decide (mode = encodeUserPassword) then one_of "@/?:" c
  else if one_of "$&+,/:;=?@" c
          && bool_decide (mode = encodeQueryComponent) then true
  else if one_of "$&+,/:;=?@" c
          && bool_decide (mode = encodeFragment) then false
  else if bool_decide (mode = encodeFragment) && one_of "!()*" c then false
  else true.

(** First loop of [unescape]: count the escapes and check that they are
    well formed.  [None] when the loop finds no error. *)
Fixpoint unescape_check (mode : encoding) (s : gostring) : option Error :=
  match s with
  | [] => None
  | c :: s' =>
      if bool_decide (c = "%"%char) then
        match s' with
        | h1 :: h2 :: s'' =>
            if negb (ishex h1) || negb (ishex h2) then Some (EscapeError (upto s 3))
            else if bool_decide (mode = encodeHost) && (unhex h1 <? 8)
                    && negb (bool_decide ([c; h1; h2] = str "%25"))
            then Some (EscapeError [c; h1; h2])
            else if bool_decide (mode = encodeZone)
                    && negb (bool_decide ([c; h1; h2] = str "%25"))
                    && negb (bool_decide (unhex2 h1 h2 = " "%char))
                    && shouldEscape (unhex2 h1 h2) encodeHost
            then Some (EscapeError [c; h1; h2])
            else unescape_check mode s''
        | _ => Some (EscapeError (upto s 3))
        end
      else if bool_decide (mode = encodeHost ∨ mode = encodeZone)
              && (byte c <? 128) && shouldEscape c mode
      then Some (InvalidHostError [c])
      else unescape_check mode s'
  end.

(** Second loop of [unescape]: build the unescaped string (which is [s]
    itself when there is nothing to replace). *)
Fixpoint unescape_build (mode : encoding) (s : gostring) : gostring :=
  match s with
  | [] => []
  | c :: s' =>
      if bool_decide (c = "%"%char) then
        match s' with
        | h1 :: h2 :: s'' => unhex2 h1 h2 :: unescape_build mode s''
        | _ => []
        end
      else if bool_decide (c = "+"%char) && bool_decide (mode = encodeQueryComponent)
      then " "%char :: unescape_build mode s'
      else c :: unescape_build mode s'
  end.

(** [unescape] *)
Definition unescape (s : gostring) (mode : encoding) : result Error gostring :=
  match unescape_check mode s with
  | Some e => Err e
  | None => Ok (unescape_build mode s)
  end.

(** [stringContainsCTLByte] *)
Definition stringContainsCTLByte (s : gostring) : bool :=
  existsb (λ b, (byte b <? 32) || (byte b =? 127)) s.

(** The loop of [getScheme]; [rest] is [rawURL[i:]]. *)
Fixpoint getScheme_go (rawURL : gostring) (i : Z) (rest : gostring)
    : result Error (gostring * gostring) :=
  match rest with
  | [] => Ok ([], rawURL)
  | c :: rest' =>
      if is_lower c || is_upper c then getScheme_go rawURL (i + 1) rest'
      else if is_digit c || one_of "+-." c then
        if i =? 0 then Ok ([], rawURL) else getScheme_go rawURL (i + 1) rest'
      else if bool_decide (c = ":"%char) then
        if i =? 0 then Err MissingProtocolScheme
        else Ok (upto rawURL i, from rawURL (i + 1))
      else Ok ([], rawURL)
  end.

(** [getScheme] *)
Definition getScheme (rawURL : gostring) : result Error (gostring * gostring) :=
  getScheme_go rawURL 0 rawURL.

(** [strings.ToLower] on a scheme, which [getScheme] leaves in ASCII. *)
Definition ToLower (s : gostring) : gostring :=
  (λ c, if is_upper c then ascii_of_N (Z.to_N (byte c + 32)) else c) <$> s.

(** [validOptionalPort] *)
Definition validOptionalPort (port : gostring) : bool :=
  match port with
  | [] => true
  | c :: digits => bool_decide (c = ":"%char) && forallb is_digit digits
  end.

(** [validUserinfo].  The source ranges over runes; every rune outside
    ASCII, and so every byte above 127, is refused. *)
Definition validUserinfo (s : gostring) : bool :=
  forallb (λ r, is_alnum r || one_of "-._:~!$&'()*+,;=%@" r) s.

(** [parseHost] *)
Definition parseHost (host : gostring) : result Error gostring :=
  let plain := unescape host encodeHost in
  if HasPrefix host "[" then
    let i := LastIndex host "]" in
    if i <? 0 then Err MissingBracket
    else
      let colonPort := from host (i + 1) in
      if negb (validOptionalPort colonPort) then Err (InvalidPort colonPort)
      else
        let zone := Index (upto host i) "%25" in
        if 0 <=? zone then
          match unescape (upto host zone) encodeHost with
          | Err e => Err e
          | Ok host1 =>
              match unescape (slice host zone i) encodeZone with
              | Err e => Err e
              | Ok host2 =>
                  match unescape (from host i) encodeHost with
                  | Err e => Err e
                  | Ok host3 => Ok (host1 ++ host2 ++ host3)
                  end
              end
          end
        else plain
  else
    let i := LastIndex host ":" in
    if negb (i =? -1) && negb (validOptionalPort (from host i))
    then Err (InvalidPort (from host i))
    else plain.

(** [parseAuthority] *)
Definition parseAuthority (authority : gostring)
    : result Error (option Userinfo * gostring) :=
  let i := LastIndex authority "@" in
  match parseHost (if i <? 0 then authority else from authority (i + 1)) with
  | Err e => Err e
  | Ok host =>
      if i <? 0 then Ok (None, host)
      else
        let userinfo := upto authority i in
        if negb (validUserinfo userinfo) then Err InvalidUserinfo
        else if negb (Contains userinfo ":") then
          match unescape userinfo encodeUserPassword with
          | Err e => Err e
          | Ok userinfo =>
              Ok (Some {| username := userinfo; password := [];
                          passwordSet := false |}, host)
          end
        else
          let '(username, password, _) := Cut userinfo ":" in
          match unescape username encodeUserPassword with
          | Err e => Err e
          | Ok username =>
              match unescape password encodeUserPassword with
              | Err e => Err e
              | Ok password =>
                  Ok (Some {| username := username; password := password;
                              passwordSet := true |}, host)
              end
          end
  end.

Definition with_path (u : URL) (p : gostring) : URL :=
  {| Scheme := Scheme u; Opaque := Opaque u; User := User u; Host := Host u;
     Path := p; OmitHost := OmitHost u; ForceQuery := ForceQuery u;
     RawQuery := RawQuery u; Fragment := Fragment u |}.

Definition with_fragment (u : URL) (f : gostring) : URL :=
  {| Scheme := Scheme u; Opaque := Opaque u; User := User u; Host := Host u;
     Path := Path u; OmitHost := OmitHost u; ForceQuery := ForceQuery u;
     RawQuery := RawQuery u; Fragment := f |}.

(** The method [setPath] of [URL]. *)
Definition setPath (u : URL) (p : gostring) : result Error URL :=
  match unescape p encodePath with
  | Err e => Err e
  | Ok path => Ok (with_path u path)
  end.

(** The method [setFragment] of [URL]. *)
Definition setFragment (u : URL) (f : gostring) : result Error URL :=
  match unescape f encodeFragment with
  | Err e => Err e
  | Ok frag => Ok (with_fragment u frag)
  end.

(** [parse] *)
Definition parse (rawURL : gostring) (viaRequest : bool) : result Error URL :=
  if stringContainsCTLByte rawURL then Err InvalidControlCharacter
  else if bool_decide (rawURL = []) && viaRequest then Err EmptyURL
  else if bool_decide (rawURL = str "*") then Ok (with_path zero "*")
  else
    match getScheme rawURL with
    | Err e => Err e
    | Ok (scheme, rest) =>
        let scheme := ToLower scheme in
        let '(rest, forceQuery, rawQuery) :=
          if HasSuffix rest "?" && (Count rest "?" =? 1)
          then (upto rest (len rest - 1), true, [])
          else let '(before, after, _) := Cut rest "?" in (before, false, after) in
        let url :=
          {| Scheme := scheme; Opaque := []; User := None; Host := [];
             Path := []; OmitHost := false; ForceQuery := forceQuery;
             RawQuery := rawQuery; Fragment := [] |} in
        if negb (HasPrefix rest "/") && negb (bool_decide (scheme = [])) then
          Ok {| Scheme := scheme; Opaque := rest; User := None; Host := [];
                Path := []; OmitHost := false; ForceQuery := forceQuery;
                RawQuery := rawQuery; Fragment := [] |}
        else if negb (HasPrefix rest "/") && viaRequest then Err InvalidURIForRequest
        else if negb (HasPrefix rest "/")
                && Contains (fst (fst (Cut rest "/"))) ":"
        then Err FirstPathSegmentColon
        else if (negb (bool_decide (scheme = []))
                 || (negb viaRequest && negb (HasPrefix rest "///")))
                && HasPrefix rest "//"
        then
          let authority := from rest 2 in
          let i := Index authority "/" in
          let '(authority, rest) :=
            if 0 <=? i then (upto authority i, from authority i)
            else (authority, []) in
          match parseAuthority authority with
          | Err e => Err e
          | Ok (user, host) =>
              setPath
                {| Scheme := scheme; Opaque := []; User := user; Host := host;
                   Path := []; OmitHost := false; ForceQuery := forceQuery;
                   RawQuery := rawQuery; Fragment := [] |} rest
          end
        else if negb (bool_decide (scheme = [])) && HasPrefix rest "/" then
          setPath
            {| Scheme := scheme; Opaque := []; User := None; Host := [];
               Path := []; OmitHost := true; ForceQuery := forceQuery;
               RawQuery := rawQuery; Fragment := [] |} rest
        else setPath url rest
    end.

(** [url.Parse] *)
Definition Parse (rawURL : gostring) : result Error URL :=
  let '(u, frag, _) := Cut rawURL "#" in
  match parse u false with
  | Err e => Err e
  | Ok url =>
      if bool_decide (frag = []) then Ok url else setFragment url frag
  end.

End Url.


(** ** The environment of the tracer *)

(** Package k8s.io/api/core/v1: the fields of a pod the tracer reads. *)
Module V1.
Record ContainerStatus := { ContainerID : gostring }.
Record PodStatus := { ContainerStatuses : list ContainerStatus }.
Record Pod := { Name : gostring; Status : PodStatus }.
End V1.

(** Package os. *)
Module Os.
Inductive error :=
  | PathError (op path : gostring).

(** [os.DirEntry] *)
Record DirEntry := { Name : gostring; IsDir : bool }.
End Os.

(** Package regexp: a compiled expression is used through [MatchString]
    only. *)
Module Regexp.
Record Regexp := { MatchString : gostring → bool }.

(** "[0-9]+" matches at the start of [s]: one digit is enough. *)
Definition digits_at (s : gostring) : bool :=
  match s with
  | c :: _ => is_digit c
  | [] => false
  end.

(** [MatchString] of [regexp.MustCompile("[0-9]+")]: the expression is
    not anchored, a match may start anywhere in the string. *)
Fixpoint digits_anywhere (s : gostring) : bool :=
  digits_at s || match s with
                 | [] => false
                 | _ :: s' => digits_anywhere s'
                 end.
End Regexp.

(** What the operating system answers: the directory listings and files
    of the process table, the environment variables, the page size, and
    [misc.GetProcCmdLine] and [kubernetes.GetTargetedPods], whose sources
    are not part of the development. *)
Record System := {
  ReadDir : gostring → result Os.error (list Os.DirEntry);
  ReadFile : gostring → result Os.error gostring;
  Getenv : gostring → gostring;
  Getpagesize : Z;
  GetProcCmdLine : gostring → result Os.error gostring;
  GetTargetedPods : list V1.Pod;
}.

(** Errors of the tracer. *)
Inductive error :=
  | OsError (err : Os.error)
  (** "Error reading cgroup file %s - %v" *)
  | ErrReadingCgroupFile (fpath : gostring) (err : Os.error)
  (** "Cgroup path not found for %s, %s" *)
  | ErrCgroupPathNotFound (pid : gostring) (lines : list gostring)
  (** an error returned by the capture engine or by [updateTargets] *)
  | EngineError (code : Z).

(** ** The cgroup path normalizer *)

(** [parts[len(parts)-1]] *)
Definition last_part (parts : list gostring) : gostring :=
  parts !!! (length parts - 1)%nat.

(** The loop of [extractCgroup]. *)
Fixpoint extractCgroup_scan (lines : list gostring) : gostring :=
  match lines with
  | [] => []
  | line :: lines' =>
      if GoStrings.Contains line ":pids:"
      then last_part (GoStrings.Split line ":")
      else extractCgroup_scan lines'
  end.

Definition extractCgroup (lines : list gostring) : gostring :=
  if len lines =? 1 then last_part (GoStrings.Split (lines !!! 0%nat) ":")
  else extractCgroup_scan lines.

(** The dash step of [normalizeCgroup]:
    [if strings.Contains(basename, "-") { basename = basename[strings.Index(basename, "-")+1:] }]. *)
Definition normalizeCgroup_dash (basename : gostring) : gostring :=
  if GoStrings.Contains basename "-"
  then from basename (GoStrings.Index basename "-" + 1)
  else basename.

Definition normalizeCgroup (cgrouppath : gostring) : gostring :=
  let basename := GoStrings.TrimSpace (GoPath.Base cgrouppath) in
  let basename := normalizeCgroup_dash basename in
  if GoStrings.Contains basename "."
  then GoStrings.TrimSuffix basename (GoPath.Ext basename)
  else basename.

(** [fmt.Sprintf("%s/%s/cgroup", procfs, pid)] *)
Definition cgroupFile (procfs pid : gostring) : gostring :=
  procfs ++ "/" ++ pid ++ "/cgroup".

Definition getProcessCgroup (sys : System) (procfs pid : gostring)
    : result error gostring :=
  let fpath := cgroupFile procfs pid in
  match ReadFile sys fpath with
  | Err err => Err (ErrReadingCgroupFile fpath err)
  | Ok bytes =>
      let lines := GoStrings.Split bytes newline in
      let cgrouppath := extractCgroup lines in
      let cgrouppath :=
        if GoStrings.Contains cgrouppath "-"
        then last_part (GoStrings.Split cgrouppath "-")
        else cgrouppath in
      if bool_decide (cgrouppath = []) then Err (ErrCgroupPathNotFound pid lines)
      else Ok (normalizeCgroup cgrouppath)
  end.

(** ** The container index builder *)

Definition buildContainerIdsMap (pods : list V1.Pod) : gmap gostring V1.Pod :=
  foldl (λ result pod,
    foldl (λ result container,
      match Url.Parse (V1.ContainerID container) with
      | Err _ => result
      | Ok parsedUrl => <[Url.Host parsedUrl := pod]> result
      end) result (V1.ContainerStatuses (V1.Status pod)))
    ∅ pods.

(** ** The process enumerators *)

(** [var numberRegex = regexp.MustCompile("[0-9]+")] *)
Definition numberRegex : Regexp.Regexp :=
  {| Regexp.MatchString := Regexp.digits_anywhere |}.

Definition findContainerPids (sys : System) (procfs : gostring)
    (containerIds : gmap gostring V1.Pod) : gmap Z V1.Pod * option error :=
  match ReadDir sys procfs with
  | Err err => (∅, Some (OsError err))
  | Ok pids =>
      (foldl (λ result pid,
         if negb (Os.IsDir pid) then result
         else if negb (Regexp.MatchString numberRegex (Os.Name pid)) then result
         else
           match getProcessCgroup sys procfs (Os.Name pid) with
           | Err _ => result
           | Ok cgroup =>
               match containerIds !! cgroup with
               | None => result
               | Some pod =>
                   match Strconv.Atoi (Os.Name pid) with
                   | Err _ => result
                   | Ok pidNumber => <[uint32 pidNumber := pod]> result
                   end
               end
           end) ∅ pids, None)
  end.

Definition findContainerPidsHost (sys : System) (procfs : gostring)
    (cmdLineRegex : option Regexp.Regexp) : list Z * option error :=
  match ReadDir sys procfs with
  | Err err => ([], Some (OsError err))
  | Ok pids =>
      (foldl (λ result pid,
         if negb (Os.IsDir pid) then result
         else if negb (Regexp.MatchString numberRegex (Os.Name pid)) then result
         else
           match Strconv.Atoi (Os.Name pid) with
           | Err _ => result
           | Ok pidNumber =>
               match cmdLineRegex with
               | Some re =>
                   match GetProcCmdLine sys (Os.Name pid) with
                   | Err _ => result
                   | Ok cmdLine =>
                       if negb (Regexp.MatchString re cmdLine) then result
                       else result ++ [uint32 pidNumber]
                   end
               | None => result ++ [uint32 pidNumber]
               end
           end) [] pids, None)
  end.

(** ** The capture engine and the reconciliation passes *)

(** The global [tracer]; of the [Tracer] structure the code here reads
    the field [procfs] only. *)
Record Tracer := { procfs : gostring }.

(** The calls that leave the code modelled here: the methods of [Tracer]
    and the functions [LogError] and [updateTargets], whose sources are
    not part of the development. *)
Inductive Call :=
  | Init (chunksBufferSize logBufferSize : Z) (procfs : gostring)
  | ClearPids
  | AddSSLLibPid (procfs : gostring) (pid : Z)
  | AddGoPid (procfs : gostring) (pid : Z)
  | globalSSLLibTarget (procfs pid : gostring)
  | globalGoTarget (procfs pid : gostring)
  | updateTargets (pods : list V1.Pod)
  | LogError (err : error).

(** What the code behind a call answers, an error or [nil]; the answer
    may depend on every call made before. *)
Definition Engine : Type := list Call → Call → option error.

(** The order in which a [range] loop visits the keys of a map; Go leaves
    it unspecified. *)
Definition RangeOrder : Type := gmap Z V1.Pod → list Z.

Definition range_order_ok (order : RangeOrder) : Prop :=
  ∀ m, order m ≡ₚ (map_to_list m).*1.

(** Code that calls the engine threads the history of calls. *)
Definition Action (A : Type) : Type := list Call → A * list Call.

Definition ret {A} (a : A) : Action A := λ h, (a, h).

Definition bind {A B} (m : Action A) (k : A → Action B) : Action B :=
  λ h, let '(a, h') := m h in k a h'.

Notation "x <- m ;; k" := (bind m (λ x, k))
  (at level 100, m at next level, right associativity).
Notation "m ;;; k" := (bind m (λ _, k))
  (at level 100, right associativity).

Definition call (engine : Engine) (c : Call) : Action (option error) :=
  λ h, (engine h c, h ++ [c]).

(** [if err := c; err != nil { LogError(err) }] *)
Definition logged (engine : Engine) (c : Call) : Action unit :=
  err <- call engine c ;;
  match err with
  | Some err => call engine (LogError err) ;;; ret tt
  | None => ret tt
  end.

(** A [for] loop whose body neither breaks nor returns. *)
Fixpoint forEach {A} (l : list A) (body : A → Action unit) : Action unit :=
  match l with
  | [] => ret tt
  | x :: l' => body x ;;; forEach l' body
  end.

Definition UpdateTargets (sys : System) (engine : Engine) (order : RangeOrder)
    (tracer : Tracer) (pods : list V1.Pod) : Action (option error) :=
  let containerIds := buildContainerIdsMap pods in
  let '(containerPids, err) := findContainerPids sys (procfs tracer) containerIds in
  match err with
  | Some err => ret (Some err)
  | None =>
      call engine ClearPids ;;;
      forEach (order containerPids) (λ pid,
        logged engine (AddSSLLibPid (procfs tracer) pid) ;;;
        logged engine (AddGoPid (procfs tracer) pid)) ;;;
      ret None
  end.

Definition UpdateTargetsHost (sys : System) (engine : Engine)
    (tracer : Tracer) (cmdLineRegex : option Regexp.Regexp)
    : Action (option error) :=
  let '(hostPids, err) := findContainerPidsHost sys (procfs tracer) cmdLineRegex in
  match err with
  | Some err => ret (Some err)
  | None =>
      call engine ClearPids ;;;
      forEach hostPids (λ pid,
        logged engine (AddSSLLibPid (procfs tracer) pid) ;;;
        logged engine (AddGoPid (procfs tracer) pid)) ;;;
      ret None
  end.

(** [createTracer]; [procfs_flag] is the value of the flag [-procfs].
    The function sets the global [tracer], which is returned with the
    error. *)
Definition createTracer (sys : System) (engine : Engine) (procfs_flag : gostring)
    : Action (Tracer * option error) :=
  let tracer := {| procfs := procfs_flag |} in
  let chunksBufferSize := Getpagesize sys * 100 in
  let logBufferSize := Getpagesize sys in
  err <- call engine (Init chunksBufferSize logBufferSize procfs_flag) ;;
  match err with
  | Some err => ret (tracer, Some err)
  | None =>
      let podList := GetTargetedPods sys in
      err <- call engine (updateTargets podList) ;;
      match err with
      | Some err => ret (tracer, Some err)
      | None =>
          err <-
            (if negb (bool_decide (Getenv sys "KUBESHARK_GLOBAL_LIBSSL_PID" = []))
             then call engine
                    (globalSSLLibTarget procfs_flag
                       (Getenv sys "KUBESHARK_GLOBAL_LIBSSL_PID"))
             else ret None) ;;
          match err with
          | Some err => ret (tracer, Some err)
          | None =>
              err <-
                (if negb (bool_decide (Getenv sys "KUBESHARK_GLOBAL_GOLANG_PID" = []))
                 then call engine
                        (globalGoTarget procfs_flag
                           (Getenv sys "KUBESHARK_GLOBAL_GOLANG_PID"))
                 else ret None) ;;
              ret (tracer, err)
          end
      end
  end.

(** ** Cgroup files

    The shapes of cgroup files the properties below are about. *)

(** The line that [extractCgroup] selects among the lines
    [before ++ line :: after]: the only line, or the first line that
    contains ":pids:". *)
Definition selected (before : list gostring) (line : gostring)
    (after : list gostring) : bool :=
  bool_decide (before = [] ∧ after = [])
  || (forallb (λ l, negb (GoStrings.Contains l ":pids:")) before
      && GoStrings.Contains line ":pids:").

(** A system whose process table holds the one process "1", with the
    given cgroup file. *)
Definition one_process (content : gostring) : System :=
  {| ReadDir := λ _, Ok [ {| Os.Name := "1"; Os.IsDir := true |} ];
     ReadFile := λ path,
       if bool_decide (path = cgroupFile "/proc" "1") then Ok content
       else Err (Os.PathError "open" path);
     Getenv := λ _, [];
     Getpagesize := 4096;
     GetProcCmdLine := λ pid, Err (Os.PathError "open" pid);
     GetTargetedPods := [] |}.





(** A pod with the given container identifiers. *)
Definition pod_with (name : gostring) (ids : list gostring) : V1.Pod :=
  {| V1.Name := name;
     V1.Status := {| V1.ContainerStatuses := V1.Build_ContainerStatus <$> ids |} |}.

(** ** Systems and engines to run the code on *)

(** A directory entry of the process table. *)
Definition dir (name : gostring) : Os.DirEntry :=
  {| Os.Name := name; Os.IsDir := true |}.

(** A system with the given process table entries, files and environment. *)
Definition system_of (entries : list Os.DirEntry)
    (files : list (gostring * gostring)) (env : list (gostring * gostring))
    : System :=
  {| ReadDir := λ _, Ok entries;
     ReadFile := λ path,
       match (list_to_map files : gmap gostring gostring) !! path with
       | Some content => Ok content
       | None => Err (Os.PathError "open" path)
       end;
     Getenv := λ name,
       default [] ((list_to_map env : gmap gostring gostring) !! name);
     Getpagesize := 4096;
     GetProcCmdLine := λ pid, Err (Os.PathError "open" pid);
     GetTargetedPods := [] |}.

(** The map order that visits the keys as [map_to_list] lists them. *)
Definition listed_order : RangeOrder := λ m, (map_to_list m).*1.

(** An engine that refuses the calls of [refused] and accepts the rest. *)
Definition engine_refusing (refused : Call → bool) : Engine :=
  λ _ c, if refused c then Some (EngineError 1) else None.

(** The spec's words for a process-table name: entirely numeric. *)
Definition entirely_numeric (name : gostring) : bool :=
  negb (bool_decide (name = [])) && forallb is_digit name.

(** The calls a loop of registrations may make for the PIDs [pids]: the
    two registrations of one of them, or [LogError]. *)
Definition registration_of (p : gostring) (pids : list Z) (c : Call) : Prop :=
  (∃ pid, pid ∈ pids ∧ (c = AddSSLLibPid p pid ∨ c = AddGoPid p pid))
  ∨ ∃ err, c = LogError err.

(** * Properties of the library functions *)

(** A fact about every byte, checked on the 256 of them. *)
Ltac every_byte c :=
  destruct c as [[] [] [] [] [] [] [] []]; vm_compute; try reflexivity;
  try discriminate; intuition discriminate.

Section go_library_examples.
Import GoStrings GoPath.

Example Split_lines :
  Split ("1:cpu:/" ++ newline ++ "2:pids:/x" ++ newline) newline
  = [str "1:cpu:/"; str "2:pids:/x"; []].
Proof. reflexivity. Qed.

Example Split_multi : Split "xabab" "ab" = [str "x"; []; []].
Proof. reflexivity. Qed.

Example Split_absent : Split "abc" "-" = [str "abc"].
Proof. reflexivity. Qed.

Example Index_first : Index "a-b-c" "-" = 1 ∧ LastIndex "a-b-c" "-" = 3.
Proof. split; reflexivity. Qed.

Example Cut_first : Cut "a?b?c" "?" = (str "a", str "b?c", true).
Proof. reflexivity. Qed.

Example TrimSpace_ascii : TrimSpace "  ab c " = str "ab c".
Proof. reflexivity. Qed.

(** U+00A0 (bytes C2 A0) is white space, a lone C2 byte is not. *)
Example TrimSpace_nbsp :
  TrimSpace [ascii_of_nat 194; ascii_of_nat 160; "a"%char; ascii_of_nat 194]
  = ["a"%char; ascii_of_nat 194].
Proof. vm_compute. reflexivity. Qed.

Example Base_examples :
  Base "/a/b/" = str "b" ∧ Base "///" = str "/" ∧ Base "" = str "."
  ∧ Base "abc" = str "abc".
Proof. repeat split; reflexivity. Qed.

Example Ext_examples :
  Ext "docker-abc.scope" = str ".scope" ∧ Ext "a.b/c" = [] ∧ Ext "a.b.c" = str ".c".
Proof. repeat split; reflexivity. Qed.

Example TrimSuffix_example : TrimSuffix "abc.scope" ".scope" = str "abc".
Proof. reflexivity. Qed.
End go_library_examples.

Section strconv_examples.
Import Strconv.

Example Atoi_examples :
  Atoi "17" = Ok 17 ∧ Atoi "+17" = Ok 17 ∧ Atoi "-5" = Ok (-5)
  ∧ Atoi "1a" = Err ErrSyntax ∧ Atoi "" = Err ErrSyntax
  ∧ Atoi "abc" = Err ErrSyntax
  ∧ Atoi "9223372036854775807" = Ok 9223372036854775807
  ∧ Atoi "9223372036854775808" = Err ErrRange
  ∧ Atoi "99999999999999999999" = Err ErrRange.
Proof. repeat split; vm_compute; reflexivity. Qed.
End strconv_examples.

Section url_examples.
Import Url.

Example Parse_docker :
  Host <$> (match Parse "docker://abc123" with Ok u => Some u | Err _ => None end)
  = Some (str "abc123").
Proof. vm_compute. reflexivity. Qed.

Example Parse_full :
  Parse "HTTP://bob:pw@example.com:8080/a%20b?x=1#frag"
  = Ok {| Scheme := "http"; Opaque := [];
          User := Some {| username := "bob"; password := "pw"; passwordSet := true |};
          Host := "example.com:8080"; Path := "/a b"; OmitHost := false;
          ForceQuery := false; RawQuery := "x=1"; Fragment := "frag" |}.
Proof. vm_compute. reflexivity. Qed.

(** A string with no scheme and no authority is a relative path; it is
    not an error and its host is empty. *)
Example Parse_no_scheme :
  Parse "abc123"
  = Ok {| Scheme := []; Opaque := []; User := None; Host := [];
          Path := "abc123"; OmitHost := false; ForceQuery := false;
          RawQuery := []; Fragment := [] |}.
Proof. vm_compute. reflexivity. Qed.

Example Parse_opaque :
  Parse "docker:abc123"
  = Ok {| Scheme := "docker"; Opaque := "abc123"; User := None; Host := [];
          Path := []; OmitHost := false; ForceQuery := false;
          RawQuery := []; Fragment := [] |}.
Proof. vm_compute. reflexivity. Qed.

Example Parse_errors :
  Parse ":abc" = Err MissingProtocolScheme
  ∧ Parse "1a:b" = Err FirstPathSegmentColon
  ∧ Parse "abc%zz" = Err (EscapeError "%zz")
  ∧ Parse "docker://a b" = Err (InvalidHostError " ")
  ∧ Parse "docker://a:x" = Err (InvalidPort ":x")
  ∧ Parse (str "docker://a" ++ newline) = Err InvalidControlCharacter.
Proof. repeat split; vm_compute; reflexivity. Qed.
End url_examples.

Section slices.
Context {A : Type}.
Implicit Types s : list A.

Lemma len_nonneg s : 0 <= len s.
Proof. unfold len. lia. Qed.

Lemma len_app s t : len (s ++ t) = len s + len t.
Proof. unfold len. rewrite length_app. lia. Qed.

Lemma len_cons x s : len (x :: s) = 1 + len s.
Proof. unfold len. simpl. lia. Qed.

Lemma from_app_len s t : from (s ++ t) (len s) = t.
Proof. unfold from, len. rewrite Nat2Z.id. apply drop_app_length. Qed.

Lemma upto_app_len s t : upto (s ++ t) (len s) = s.
Proof. unfold upto, len. rewrite Nat2Z.id. apply take_app_length. Qed.

Lemma upto_len s : upto s (len s) = s.
Proof. unfold upto, len. rewrite Nat2Z.id. apply firstn_all. Qed.

Lemma elem_of_from x s i : x ∈ from s i → x ∈ s.
Proof. apply subseteq_drop. Qed.

Lemma elem_of_upto x s i : x ∈ upto s i → x ∈ s.
Proof. apply subseteq_take. Qed.

Lemma elem_of_slice x s i j : x ∈ slice s i j → x ∈ s.
Proof. unfold slice. intros H. by eapply elem_of_from, elem_of_upto. Qed.
End slices.

Section one_byte_patterns.
Import GoStrings.
Implicit Types (s t : gostring) (c : ascii).

Lemma HasPrefix_byte x s c : HasPrefix (x :: s) [c] = bool_decide (x = c).
Proof. simpl. apply andb_true_r. Qed.

Lemma Index_byte_absent s c : c ∉ s → Index s [c] = -1.
Proof.
  induction s as [|x s IH]; intros Hc; [reflexivity|].
  apply not_elem_of_cons in Hc as [Hx Hs].
  cbn [Index]. rewrite HasPrefix_byte, bool_decide_eq_false_2 by congruence.
  by rewrite IH.
Qed.

Lemma Index_byte_first s t c : c ∉ s → Index (s ++ c :: t) [c] = len s.
Proof.
  induction s as [|x s IH]; intros Hc.
  - cbn [app Index]. by rewrite HasPrefix_byte, bool_decide_eq_true_2.
  - apply not_elem_of_cons in Hc as [Hx Hs].
    cbn [app Index]. rewrite HasPrefix_byte, bool_decide_eq_false_2 by congruence.
    rewrite IH by done. rewrite len_cons.
    pose proof (len_nonneg s). destruct (Z.ltb_spec (len s) 0); lia.
Qed.

Lemma Contains_byte_false s c : c ∉ s → Contains s [c] = false.
Proof. intros H. unfold Contains. by rewrite Index_byte_absent. Qed.

Lemma Contains_byte_true s c : c ∈ s → Contains s [c] = true.
Proof.
  intros (s1 & s2 & -> & Hs1)%list_elem_of_split_l.
  unfold Contains. rewrite Index_byte_first by done.
  pose proof (len_nonneg s1). by apply Z.leb_le.
Qed.

Lemma Contains_byte s c : Contains s [c] = bool_decide (c ∈ s).
Proof.
  case_bool_decide.
  - by apply Contains_byte_true.
  - by apply Contains_byte_false.
Qed.

Lemma LastIndex_byte_absent s c : c ∉ s → LastIndex s [c] = -1.
Proof.
  induction s as [|x s IH]; intros Hc; [reflexivity|].
  apply not_elem_of_cons in Hc as [Hx Hs].
  cbn [LastIndex]. rewrite IH by done.
  by rewrite HasPrefix_byte, bool_decide_eq_false_2 by congruence.
Qed.

Lemma LastIndex_byte_last s t c : c ∉ t → LastIndex (s ++ c :: t) [c] = len s.
Proof.
  intros Ht. induction s as [|x s IH].
  - cbn [app LastIndex]. rewrite LastIndex_byte_absent by done.
    by rewrite HasPrefix_byte, bool_decide_eq_true_2.
  - cbn [app LastIndex]. rewrite IH, len_cons.
    pose proof (len_nonneg s). destruct (Z.leb_spec 0 (len s)); lia.
Qed.

Lemma HasSuffix_byte s c : HasSuffix s [c] = true → c ∈ s.
Proof.
  unfold HasSuffix. intros [_ H%bool_decide_eq_true]%andb_true_iff.
  apply (elem_of_from _ _ (len s - len [c])). rewrite H. left.
Qed.

Lemma HasSuffix_app s t : HasSuffix (s ++ t) t = true.
Proof.
  unfold HasSuffix. rewrite len_app. apply andb_true_iff. split.
  - pose proof (len_nonneg s). apply Z.leb_le. lia.
  - apply bool_decide_eq_true. replace (len s + len t - len t) with (len s) by lia.
    apply from_app_len.
Qed.

Lemma TrimSuffix_app s t : TrimSuffix (s ++ t) t = s.
Proof.
  unfold TrimSuffix. rewrite HasSuffix_app, len_app.
  replace (len s + len t - len t) with (len s) by lia. apply upto_app_len.
Qed.

Lemma elem_of_TrimSuffix x s t : x ∈ TrimSuffix s t → x ∈ s.
Proof. unfold TrimSuffix. destruct (HasSuffix s t); [apply elem_of_upto|done]. Qed.
End one_byte_patterns.

Section split.
Import GoStrings.
Implicit Types (s t : gostring) (c : ascii) (parts : list gostring).

Lemma last_part_singleton s : last_part [s] = s.
Proof. reflexivity. Qed.

Lemma last_part_cons s t parts : last_part (s :: t :: parts) = last_part (t :: parts).
Proof. unfold last_part. simpl. by rewrite Nat.sub_0_r. Qed.

Lemma last_part_app parts s : last_part (parts ++ [s]) = s.
Proof.
  induction parts as [|p parts IH]; [done|].
  destruct parts; [done|]. simpl in *. by rewrite last_part_cons.
Qed.

Lemma Split_byte_cons x s c :
  Split (x :: s) [c]
  = if bool_decide (x = c) then [] :: Split s [c]
    else match Split s [c] with
         | piece :: pieces => (x :: piece) :: pieces
         | [] => [[x]]
         end.
Proof. unfold Split. cbn [split_go]. by rewrite HasPrefix_byte. Qed.

Lemma Split_byte_nonempty s c : Split s [c] ≠ [].
Proof.
  induction s as [|x s IH]; [done|].
  rewrite Split_byte_cons. case_bool_decide; [done|].
  by destruct (Split s [c]).
Qed.

(** Without the separator there is one piece. *)
Lemma Split_byte_absent s c : c ∉ s → Split s [c] = [s].
Proof.
  induction s as [|x s IH]; intros Hc; [done|].
  apply not_elem_of_cons in Hc as [Hx Hs].
  rewrite Split_byte_cons, bool_decide_eq_false_2 by congruence.
  by rewrite IH.
Qed.

Lemma Split_byte_app s t c :
  c ∉ s → Split (s ++ c :: t) [c] = s :: Split t [c].
Proof.
  induction s as [|x s IH]; intros Hc.
  - cbn [app]. by rewrite Split_byte_cons, bool_decide_eq_true_2.
  - apply not_elem_of_cons in Hc as [Hx Hs].
    cbn [app]. rewrite Split_byte_cons, bool_decide_eq_false_2 by congruence.
    by rewrite IH.
Qed.

(** What follows the last separator is the last piece. *)
Lemma last_part_Split_last s t c :
  c ∉ t → last_part (Split (s ++ c :: t) [c]) = t.
Proof.
  intros Ht. induction s as [|x s IH].
  - cbn [app]. rewrite Split_byte_cons, bool_decide_eq_true_2 by done.
    by rewrite Split_byte_absent.
  - cbn [app]. rewrite Split_byte_cons.
    pose proof (Split_byte_nonempty (s ++ c :: t) c) as Hne.
    destruct (Split (s ++ c :: t) [c]) as [|p [|q parts]] eqn:E; [done| |].
    + (* a string with a separator has more than one piece *)
      exfalso. clear -E.
      assert (Hlen : ∀ u, (1 < length (Split (u ++ c :: t) [c]))%nat).
      { intros u. induction u as [|y u IHu].
        - cbn [app]. rewrite Split_byte_cons, bool_decide_eq_true_2 by done.
          pose proof (Split_byte_nonempty t c).
          destruct (Split t [c]); [done|simpl; lia].
        - cbn [app]. rewrite Split_byte_cons. case_bool_decide.
          + pose proof (Split_byte_nonempty (u ++ c :: t) c).
            destruct (Split (u ++ c :: t) [c]); [done|simpl; lia].
          + destruct (Split (u ++ c :: t) [c]); simpl in *; lia. }
      specialize (Hlen s). rewrite E in Hlen. simpl in Hlen. lia.
    + rewrite last_part_cons in IH.
      case_bool_decide; by rewrite !last_part_cons.
Qed.

(** The last piece holds no separator. *)
Lemma last_part_Split_free s c : c ∉ last_part (Split s [c]).
Proof.
  destruct (decide (c ∈ s)) as [Hin|Hout].
  - apply list_elem_of_split_r in Hin as (s1 & s2 & -> & Hs2).
    by rewrite last_part_Split_last.
  - by rewrite Split_byte_absent.
Qed.

(** The last piece is a part of the string. *)
Lemma elem_of_last_part_Split x s c : x ∈ last_part (Split s [c]) → x ∈ s.
Proof.
  destruct (decide (c ∈ s)) as [Hin|Hout].
  - apply list_elem_of_split_r in Hin as (s1 & s2 & -> & Hs2).
    rewrite last_part_Split_last by done. set_solver.
  - by rewrite Split_byte_absent.
Qed.

(** Bytes after the last separator extend the last piece. *)
Lemma last_part_Split_app s t c :
  c ∉ t → last_part (Split (s ++ t) [c]) = last_part (Split s [c]) ++ t.
Proof.
  intros Ht. destruct (decide (c ∈ s)) as [Hin|Hout].
  - apply list_elem_of_split_r in Hin as (s1 & s2 & -> & Hs2).
    rewrite <- app_assoc. cbn [app].
    rewrite !last_part_Split_last; [done|done|]. by apply not_elem_of_app.
  - rewrite !Split_byte_absent; [done|done|]. by apply not_elem_of_app.
Qed.

Lemma Split_Join lines c :
  lines ≠ [] → Forall (λ line, c ∉ line) lines → Split (Join lines c) [c] = lines.
Proof.
  intros Hne Hall. induction Hall as [|line lines Hline Hall IH]; [done|].
  destruct lines as [|line' lines].
  - simpl. by apply Split_byte_absent.
  - cbn [Join]. rewrite Split_byte_app by done. f_equal. by apply IH.
Qed.
End split.

Section substrings.
Import GoStrings.
Implicit Types (s t sub line : gostring) (c x : ascii).

Lemma HasPrefix_app s t : HasPrefix (s ++ t) s = true.
Proof. induction s as [|x s IH]; [done|]. cbn. by rewrite bool_decide_eq_true_2. Qed.

Lemma Index_lower s sub : -1 <= Index s sub.
Proof.
  induction s as [|x s IH]; cbn [Index].
  - destruct (HasPrefix [] sub); lia.
  - destruct (HasPrefix (x :: s) sub); [lia|].
    destruct (Z.ltb_spec (Index s sub) 0); lia.
Qed.

Lemma Index_at_prefix s sub : HasPrefix s sub = true → Index s sub = 0.
Proof. intros H. destruct s; cbn [Index]; by rewrite H. Qed.

(** A string that contains [sub] somewhere. *)
Lemma Contains_infix s sub t : Contains (s ++ sub ++ t) sub = true.
Proof.
  unfold Contains. apply Z.leb_le. induction s as [|x s IH].
  - cbn [app]. by rewrite Index_at_prefix by apply HasPrefix_app.
  - cbn [app Index]. destruct (HasPrefix _ sub); [lia|].
    destruct (Z.ltb_spec (Index (s ++ sub ++ t) sub) 0); lia.
Qed.

Lemma HasPrefix_true s sub : HasPrefix s sub = true → ∃ t, s = sub ++ t.
Proof.
  revert s. induction sub as [|y sub IH]; intros s; [by exists s|].
  destruct s as [|x s]; [done|]. cbn [HasPrefix].
  intros [->%bool_decide_eq_true [t ->]%IH]%andb_true_iff. by exists t.
Qed.

Lemma Contains_true s sub : Contains s sub = true → ∃ a b, s = a ++ sub ++ b.
Proof.
  unfold Contains. intros H%Z.leb_le. induction s as [|x s IH]; cbn [Index] in H.
  - destruct (HasPrefix [] sub) eqn:E; [|lia].
    apply HasPrefix_true in E as [t E]. by exists [], t.
  - destruct (HasPrefix (x :: s) sub) eqn:E.
    + apply HasPrefix_true in E as [t E]. by exists [], t.
    + destruct (Z.ltb_spec (Index s sub) 0); [lia|].
      destruct IH as (a & b & ->); [done|]. by exists (x :: a), b.
Qed.

(** What a part of a string contains, the string contains. *)
Lemma Contains_part a line b sub :
  Contains line sub = true → Contains (a ++ line ++ b) sub = true.
Proof.
  intros (a' & b' & ->)%Contains_true.
  replace (a ++ (a' ++ sub ++ b') ++ b) with ((a ++ a') ++ sub ++ (b' ++ b))
    by (by rewrite <- !app_assoc).
  apply Contains_infix.
Qed.

(** The pieces of a split are parts of the string and hold no separator;
    with the separator in the string there are several of them. *)
Lemma Split_byte_pieces_upto n s c :
  (length s ≤ n)%nat →
  Forall (λ line, (c ∉ line) ∧ ∃ a b, s = a ++ line ++ b) (Split s [c])
  ∧ (c ∈ s → (1 < length (Split s [c]))%nat).
Proof.
  revert s. induction n as [|n IH]; intros s Hn.
  - destruct s; [|simpl in Hn; lia]. split; [|by intros ?%elem_of_nil].
    apply Forall_cons. split; [|done].
    split; [apply not_elem_of_nil|by exists [], []].
  - destruct (decide (c ∈ s)) as [Hin|Hout].
    + apply list_elem_of_split_l in Hin as (s1 & s2 & -> & Hs1).
      rewrite Split_byte_app by done.
      rewrite length_app in Hn. simpl in Hn.
      destruct (IH s2) as [Hall _]; [lia|]. split.
      * apply Forall_cons. split.
        -- split; [done|]. by exists [], (c :: s2).
        -- eapply Forall_impl; [done|]. intros line (Hc & a & b & ->).
           split; [done|]. exists (s1 ++ c :: a), b. by rewrite <- app_assoc.
      * intros _. pose proof (Split_byte_nonempty s2 c).
        destruct (Split s2 [c]); [done|simpl; lia].
    + rewrite Split_byte_absent by done. split; [|done].
      apply Forall_cons. split; [|done]. split; [done|].
      exists [], []. by rewrite app_nil_r.
Qed.

Lemma Split_byte_pieces s c :
  Forall (λ line, (c ∉ line) ∧ ∃ a b, s = a ++ line ++ b) (Split s [c])
  ∧ (c ∈ s → (1 < length (Split s [c]))%nat).
Proof. by apply (Split_byte_pieces_upto (length s)). Qed.
End substrings.

Section paths.
Import GoStrings GoPath.
Implicit Types (s t path : gostring) (c x : ascii).

Lemma stripTrailingSlashes_snoc s x :
  x ≠ "/"%char → stripTrailingSlashes (s ++ [x]) = s ++ [x].
Proof.
  intros Hx. induction s as [|y s IH].
  - simpl. by rewrite bool_decide_eq_false_2.
  - cbn [app stripTrailingSlashes]. rewrite IH. by destruct s.
Qed.

Lemma elem_of_stripTrailingSlashes x s : x ∈ stripTrailingSlashes s → x ∈ s.
Proof.
  induction s as [|y s IH]; [done|].
  cbn [stripTrailingSlashes].
  destruct (stripTrailingSlashes s) as [|z kept].
  - case_bool_decide; [by intros ?%elem_of_nil|].
    intros ->%list_elem_of_singleton. left.
  - intros [->|Hx]%elem_of_cons; [left|right; by apply IH].
Qed.

(** The base name of a path that ends in a segment [name]. *)
Lemma Base_segment dir name :
  name ≠ [] → "/"%char ∉ name → Base (dir ++ "/"%char :: name) = name.
Proof.
  intros Hne Hslash. unfold Base.
  rewrite bool_decide_eq_false_2 by (by destruct dir).
  destruct (exists_last Hne) as (name' & x & ->); fold (name' ++ [x]) in *.
  assert (x ≠ "/"%char) by set_solver.
  replace (dir ++ "/"%char :: name' ++ [x])
    with ((dir ++ "/"%char :: name') ++ [x]) by by rewrite <- app_assoc.
  rewrite stripTrailingSlashes_snoc by done.
  rewrite <- app_assoc. cbn [app].
  change (str "/") with ["/"%char].
  rewrite LastIndex_byte_last by done.
  pose proof (len_nonneg dir).
  destruct (Z.leb_spec 0 (len dir)); [|lia].
  replace (dir ++ "/"%char :: name' ++ [x])
    with ((dir ++ ["/"%char]) ++ name' ++ [x]) by by rewrite <- app_assoc.
  replace (len dir + 1) with (len (dir ++ ["/"%char]))
    by (rewrite len_app; reflexivity).
  rewrite from_app_len. by rewrite bool_decide_eq_false_2.
Qed.


(** [path.Base] returns a part of the path, "/" or ".". *)
Lemma elem_of_Base x path :
  x ∈ Base path → x ∈ path ∨ x = "/"%char ∨ x = "."%char.
Proof.
  unfold Base. case_bool_decide as Hp.
  - intros ->%list_elem_of_singleton. auto.
  - set (stripped := stripTrailingSlashes path).
    set (i := LastIndex stripped "/").
    assert (Hsub : ∀ y, y ∈ (if 0 <=? i then from stripped (i + 1) else stripped)
                        → y ∈ path).
    { intros y Hy. apply elem_of_stripTrailingSlashes.
      destruct (0 <=? i); [by eapply elem_of_from|done]. }
    case_bool_decide.
    + intros ->%list_elem_of_singleton. auto.
    + auto.
Qed.

Lemma Ext_scope s : Ext (s ++ ".scope") = str ".scope".
Proof. unfold Ext. by rewrite reverse_app. Qed.
End paths.

Section trimming.
Import GoStrings.
Implicit Types (s t : gostring) (c x : ascii).

Lemma scan_back_le s lim fuel start : Utf8.scan_back s lim fuel start <= start.
Proof.
  revert start. induction fuel as [|fuel IH]; intros start; cbn [Utf8.scan_back];
    [lia|].
  destruct (_ <? _); [lia|]. destruct (Utf8.RuneStart _); [lia|].
  specialize (IH (start - 1)). lia.
Qed.

(** The last rune of a string that is not empty has a width of at least
    one byte. *)
Lemma DecodeLastRuneInString_width s :
  s ≠ [] → 1 <= (Utf8.DecodeLastRuneInString s).2.
Proof.
  intros Hs. unfold Utf8.DecodeLastRuneInString.
  assert (0 < len s) by (destruct s; [done|rewrite len_cons; pose proof (len_nonneg s); lia]).
  destruct (Z.eqb_spec (len s) 0); [lia|].
  destruct (_ <? Utf8.RuneSelf); [cbn; lia|].
  pose proof (scan_back_le s (Z.max 0 (len s - Utf8.UTFMax))
                (Z.to_nat Utf8.UTFMax) (len s - 1 - 1)) as Hback.
  set (start := Z.max 0 (Utf8.scan_back _ _ _ _)) in *.
  destruct (Utf8.DecodeRuneInString _) as [r size].
  destruct (Z.eqb_spec (start + size) (len s)); cbn; lia.
Qed.

(** The loop of [lastIndexFunc] ends before its fuel does: more rounds
    than the index is high change nothing. *)
Lemma lastIndexFunc_go_fuel f truth s fuel fuel' i :
  i <= len s → (Z.to_nat i ≤ fuel)%nat → (Z.to_nat i ≤ fuel')%nat →
  lastIndexFunc_go f truth s fuel i = lastIndexFunc_go f truth s fuel' i.
Proof.
  revert fuel' i. induction fuel as [|fuel IH]; intros fuel' i Hi Hfuel Hfuel'.
  - destruct fuel'; cbn [lastIndexFunc_go]; [done|].
    destruct (Z.leb_spec i 0); [done|lia].
  - destruct fuel' as [|fuel']; cbn [lastIndexFunc_go].
    + destruct (Z.leb_spec i 0); [done|lia].
    + destruct (Z.leb_spec i 0); [done|].
      assert (Hne : upto s i ≠ []).
      { unfold upto. destruct s; [unfold len in Hi; simpl in Hi; lia|].
        destruct (Z.to_nat i) eqn:E; [lia|done]. }
      pose proof (DecodeLastRuneInString_width _ Hne) as Hwidth.
      destruct (Utf8.DecodeLastRuneInString (upto s i)) as [r size].
      cbn [snd] in Hwidth. destruct (bool_decide _); [done|].
      apply IH; lia.
Qed.

Lemma elem_of_TrimLeftFunc x s f : x ∈ TrimLeftFunc s f → x ∈ s.
Proof.
  unfold TrimLeftFunc. destruct (_ =? _); [by intros ?%elem_of_nil|].
  apply elem_of_from.
Qed.

Lemma elem_of_TrimRightFunc x s f : x ∈ TrimRightFunc s f → x ∈ s.
Proof. apply elem_of_upto. Qed.

Lemma elem_of_TrimFunc x s f : x ∈ TrimFunc s f → x ∈ s.
Proof. intros H. by eapply elem_of_TrimLeftFunc, elem_of_TrimRightFunc. Qed.

Lemma elem_of_trimSpace_start x s rest start r :
  trimSpace_start s rest start = Return r → x ∈ r → x ∈ s.
Proof.
  revert start. induction rest as [|c rest IH]; intros start; [done|].
  cbn [trimSpace_start]. destruct (_ <=? _).
  - intros [= <-] Hx. by eapply elem_of_from, elem_of_TrimFunc.
  - destruct (asciiSpace c); [apply IH|done].
Qed.

Lemma elem_of_trimSpace_stop x s start rrest stop :
  x ∈ trimSpace_stop s start rrest stop → x ∈ s.
Proof.
  revert stop. induction rrest as [|c rrest IH]; intros stop;
    cbn [trimSpace_stop].
  - apply elem_of_slice.
  - destruct (_ <=? _).
    + intros Hx. by eapply elem_of_slice, elem_of_TrimRightFunc.
    + destruct (asciiSpace c); [apply IH|apply elem_of_slice].
Qed.

(** [strings.TrimSpace] returns a part of its argument. *)
Lemma elem_of_TrimSpace x s : x ∈ TrimSpace s → x ∈ s.
Proof.
  unfold TrimSpace. destruct (trimSpace_start s s 0) as [r|start] eqn:E.
  - by eapply elem_of_trimSpace_start.
  - apply elem_of_trimSpace_stop.
Qed.

(** A string that begins and ends with such a byte has nothing to trim. *)
Lemma TrimSpace_solid_ends x s y :
  solid x = true → solid y = true →
  (∃ t, x :: t = s ++ [y]) → TrimSpace (s ++ [y]) = s ++ [y].
Proof.
  intros [Hx1 Hx2%negb_true_iff]%andb_true_iff
         [Hy1 Hy2%negb_true_iff]%andb_true_iff [t Ht].
  unfold TrimSpace. rewrite <- Ht at 2. cbn [trimSpace_start].
  apply Z.ltb_lt in Hx1, Hy1.
  destruct (Z.leb_spec Utf8.RuneSelf (byte x)); [lia|]. rewrite Hx2.
  change (from (s ++ [y]) 0) with (s ++ [y]).
  rewrite reverse_snoc. cbn [trimSpace_stop].
  destruct (Z.leb_spec Utf8.RuneSelf (byte y)); [lia|]. rewrite Hy2.
  unfold slice. change (from (s ++ [y]) 0) with (s ++ [y]).
  rewrite Z.sub_0_r. apply upto_len.
Qed.
End trimming.

(** * The cgroup path normalizer *)

Section normalizer.
Import GoStrings GoPath.
Implicit Types (s t line dir name : gostring) (c x : ascii).

Lemma none_of_elem set s c : none_of set s = true → c ∈ set → c ∉ s.
Proof.
  unfold none_of. rewrite forallb_forall. intros H Hset Hs.
  apply list_elem_of_In, H in Hs. apply negb_true_iff in Hs.
  by apply bool_decide_eq_false in Hs.
Qed.

Lemma none_of_subseteq set set' s :
  set' ⊆ set → none_of set s = true → none_of set' s = true.
Proof.
  unfold none_of. rewrite !forallb_forall. intros Hsub H c Hc.
  specialize (H c Hc). apply negb_true_iff, bool_decide_eq_false in H.
  apply negb_true_iff, bool_decide_eq_false. set_solver.
Qed.

Lemma none_of_app set s t :
  none_of set (s ++ t) = none_of set s && none_of set t.
Proof. apply forallb_app. Qed.


(** The dash step does nothing to a name without a dash. *)
Lemma normalizeCgroup_dash_idle name :
  "-"%char ∉ name → normalizeCgroup_dash name = name.
Proof.
  intros H. unfold normalizeCgroup_dash.
  change (str "-") with ["-"%char]. by rewrite Contains_byte_false.
Qed.

Lemma elem_of_normalizeCgroup_dash x name :
  x ∈ normalizeCgroup_dash name → x ∈ name.
Proof.
  unfold normalizeCgroup_dash. destruct (Contains _ _); [apply elem_of_from|done].
Qed.

(** [normalizeCgroup] returns a part of the path, "/" or ".". *)
Lemma elem_of_normalizeCgroup x path :
  x ∈ normalizeCgroup path → x ∈ path ∨ x = "/"%char ∨ x = "."%char.
Proof.
  unfold normalizeCgroup. intros H. apply elem_of_Base, elem_of_TrimSpace.
  apply elem_of_normalizeCgroup_dash.
  destruct (Contains _ _); [by eapply elem_of_TrimSuffix|done].
Qed.

(** A path whose last segment is a clean name is resolved to that name. *)
Lemma normalizeCgroup_segment dir name :
  name ≠ [] → none_of "/-." name = true → TrimSpace name = name →
  normalizeCgroup (dir ++ "/"%char :: name) = name.
Proof.
  intros Hne Hfree Htrim. unfold normalizeCgroup.
  rewrite Base_segment, Htrim; [|done|by eapply none_of_elem; [|left]].
  rewrite normalizeCgroup_dash_idle
    by (eapply none_of_elem; [done|right; left]).
  change (str ".") with ["."%char]. rewrite Contains_byte_false; [done|].
  eapply none_of_elem; [done|]. right; right; left.
Qed.

(** The pre-split of [getProcessCgroup] keeps a last segment that has no
    dash. *)
Lemma presplit_segment dir name :
  "-"%char ∉ name →
  ∃ dir', (if Contains (dir ++ "/"%char :: name) "-"
           then last_part (Split (dir ++ "/"%char :: name) "-")
           else dir ++ "/"%char :: name) = dir' ++ "/"%char :: name.
Proof.
  intros Hdash. destruct (Contains _ _); [|by exists dir].
  exists (last_part (Split dir "-")).
  change (str "-") with ["-"%char].
  rewrite (last_part_Split_app dir ("/"%char :: name)); [done|].
  apply not_elem_of_cons. split; [discriminate|done].
Qed.

Lemma extractCgroup_single line :
  extractCgroup [line] = last_part (Split line ":").
Proof. reflexivity. Qed.

Lemma extractCgroup_scan_first before line after :
  forallb (λ l, negb (Contains l ":pids:")) before = true →
  Contains line ":pids:" = true →
  extractCgroup_scan (before ++ line :: after) = last_part (Split line ":").
Proof.
  intros Hbefore Hline. induction before as [|l before IH]; cbn [app extractCgroup_scan].
  - by rewrite Hline.
  - cbn [forallb] in Hbefore. apply andb_true_iff in Hbefore as [Hl Hbefore].
    apply negb_true_iff in Hl. rewrite Hl. by apply IH.
Qed.

Lemma extractCgroup_selected before line after :
  selected before line after = true →
  extractCgroup (before ++ line :: after) = last_part (Split line ":").
Proof.
  unfold selected. intros [H|H]%orb_true_iff.
  - apply bool_decide_eq_true in H as [-> ->]. reflexivity.
  - apply andb_true_iff in H as [Hbefore Hline].
    unfold extractCgroup. destruct (_ =? _) eqn:Hlen.
    + apply Z.eqb_eq in Hlen. unfold len in Hlen. rewrite length_app in Hlen.
      simpl in Hlen. destruct before; [|simpl in Hlen; lia].
      destruct after; [|simpl in Hlen; lia]. reflexivity.
    + by apply extractCgroup_scan_first.
Qed.

Lemma extractCgroup_scan_none lines :
  Forall (λ line, Contains line ":pids:" = false) lines →
  extractCgroup_scan lines = [].
Proof.
  induction 1 as [|line lines Hline _ IH]; [done|].
  cbn [extractCgroup_scan]. by rewrite Hline.
Qed.

(** A file of several lines, none of which mentions the [pids]
    controller: [extractCgroup] finds no path. *)
Lemma extractCgroup_no_pids bytes :
  "010"%char ∈ bytes →
  Contains bytes ":pids:" = false →
  extractCgroup (Split bytes newline) = [].
Proof.
  intros Hnl Hpids.
  destruct (Split_byte_pieces bytes "010"%char) as [Hall Hlen].
  specialize (Hlen Hnl). fold newline in Hall, Hlen.
  unfold extractCgroup.
  destruct (Z.eqb_spec (len (Split bytes newline)) 1) as [E|_];
    [unfold len in E; lia|].
  apply extractCgroup_scan_none. eapply Forall_impl; [done|].
  intros l (_ & a & b & E). cbn beta in E.
  destruct (Contains l ":pids:") eqn:Hline; [|done].
  apply (Contains_part a l b) in Hline. rewrite <- E in Hline. congruence.
Qed.

(** The line of the unified hierarchy does not mention the [pids]
    controller: its only ':' are the two that follow the "0". *)
Lemma unified_line_no_pids (uid id : gostring) :
  ":"%char ∉ uid → ":"%char ∉ id →
  Contains ("0::/kubepods/besteffort/pod" ++ uid ++ "/" ++ id) ":pids:" = false.
Proof.
  intros Huid Hid.
  destruct (Contains _ ":pids:") eqn:E; [exfalso|done].
  apply Contains_true in E as (a & b & E).
  cbn [str list_ascii_of_string app] in E.
  destruct a as [|c1 [|c2 [|c3 a]]]; cbn [app] in E; try discriminate E.
  injection E as _ _ _ E.
  assert (Hin : ":"%char ∈ a ++ ":"%char :: "p"%char :: "i"%char :: "d"%char
                               :: "s"%char :: ":"%char :: b)
    by (apply elem_of_app; right; left).
  rewrite <- E in Hin.
  repeat (apply elem_of_cons in Hin as [Hin|Hin]; [discriminate Hin|]).
  apply elem_of_app in Hin as [Hin|Hin]; [done|].
  apply elem_of_cons in Hin as [Hin|Hin]; [discriminate Hin|done].
Qed.
End normalizer.

Section normalizer_claims.
Import GoStrings GoPath.
Implicit Types (sys : System) (procfs pid uid id dir name : gostring).

(** A file whose selected line ends in a clean segment [name] is resolved
    to [name]. *)
Lemma getProcessCgroup_segment sys procfs pid before dir name after :
  ReadFile sys (cgroupFile procfs pid)
    = Ok (Join (before ++ (dir ++ "/"%char :: name) :: after) "010"%char) →
  forallb (none_of newline) (before ++ after) = true →
  none_of newline dir = true →
  selected before (dir ++ "/"%char :: name) after = true →
  name ≠ [] → none_of ("-./:" ++ newline) name = true →
  TrimSpace name = name →
  getProcessCgroup sys procfs pid = Ok name.
Proof.
  intros Hread Hlines Hdir Hsel Hne Hfree Htrim.
  assert (Hname : ∀ c, c ∈ str "-./:" ++ newline → c ∉ name)
    by (intros c; by apply none_of_elem).
  assert (Hsplit : Split (Join (before ++ (dir ++ "/"%char :: name) :: after)
                               "010"%char) newline
                   = before ++ (dir ++ "/"%char :: name) :: after).
  { apply Split_Join; [by destruct before|].
    rewrite forallb_app in Hlines. apply andb_true_iff in Hlines as [Hb Ha].
    apply Forall_app. split; [|apply Forall_cons; split].
    - apply Forall_forall. intros l Hl.
      rewrite forallb_forall in Hb. apply list_elem_of_In, Hb in Hl.
      eapply none_of_elem; [done|left].
    - apply not_elem_of_app. split; [eapply none_of_elem; [done|left]|].
      apply not_elem_of_cons. split; [discriminate|].
      apply Hname. set_solver.
    - apply Forall_forall. intros l Hl.
      rewrite forallb_forall in Ha. apply list_elem_of_In, Ha in Hl.
      eapply none_of_elem; [done|left]. }
  unfold getProcessCgroup. rewrite Hread, Hsplit.
  rewrite extractCgroup_selected by done.
  change (str ":") with [":"%char].
  rewrite (last_part_Split_app dir ("/"%char :: name)).
  2:{ apply not_elem_of_cons. split; [discriminate|]. apply Hname. set_solver. }
  destruct (presplit_segment (last_part (Split dir [":"%char])) name)
    as [dir' ->]; [apply Hname; set_solver|].
  rewrite bool_decide_eq_false_2 by (by destruct dir').
  rewrite normalizeCgroup_segment; [done|done| |done].
  apply (none_of_subseteq ("-./:" ++ newline)); [|done].
  intros c Hc. cbn [str list_ascii_of_string] in Hc.
  repeat (apply elem_of_cons in Hc as [->|Hc]; [by repeat constructor|]).
  by apply elem_of_nil in Hc.
Qed.

(** The one-line file of the unified hierarchy, ended by a newline as
    the kernel writes it: [strings.Split] yields the line and an empty
    second line, so the one-line branch of [extractCgroup] is not taken;
    neither line mentions the [pids] controller, and no path is found. *)
Lemma getProcessCgroup_unified_terminated sys procfs pid uid id :
  ReadFile sys (cgroupFile procfs pid)
    = Ok (("0::/kubepods/besteffort/pod" ++ uid ++ "/" ++ id) ++ newline) →
  none_of (":" ++ newline) uid = true → none_of (":" ++ newline) id = true →
  Split (("0::/kubepods/besteffort/pod" ++ uid ++ "/" ++ id) ++ newline) newline
    = ["0::/kubepods/besteffort/pod" ++ uid ++ "/" ++ id; []]
  ∧ getProcessCgroup sys procfs pid
    = Err (ErrCgroupPathNotFound pid
             ["0::/kubepods/besteffort/pod" ++ uid ++ "/" ++ id; []]).
Proof.
  intros Hread Huid Hid.
  assert (Hnl : "010"%char ∉ str "0::/kubepods/besteffort/pod" ++ uid ++ "/" ++ id).
  { rewrite !not_elem_of_app. split; [|split; [|split]].
    - cbn [str list_ascii_of_string]. rewrite !not_elem_of_cons.
      repeat (split; [discriminate|]). apply not_elem_of_nil.
    - eapply none_of_elem; [done|]. apply elem_of_app. right. left.
    - cbn [str list_ascii_of_string]. rewrite !not_elem_of_cons.
      repeat (split; [discriminate|]). apply not_elem_of_nil.
    - eapply none_of_elem; [done|]. apply elem_of_app. right. left. }
  assert (Hsplit :
    Split (("0::/kubepods/besteffort/pod" ++ uid ++ "/" ++ id) ++ newline) newline
    = ["0::/kubepods/besteffort/pod" ++ uid ++ "/" ++ id; []]).
  { unfold newline. by rewrite Split_byte_app. }
  split; [done|].
  unfold getProcessCgroup. rewrite Hread, Hsplit.
  assert (extractCgroup ["0::/kubepods/besteffort/pod" ++ uid ++ "/" ++ id; []] = [])
    as ->; [|done].
  unfold extractCgroup. cbn [len length Z.of_nat Pos.of_succ_nat Pos.succ Z.eqb
    Pos.eqb extractCgroup_scan].
  rewrite unified_line_no_pids; [done| |].
  - eapply none_of_elem; [done|]. apply elem_of_app. left. left.
  - eapply none_of_elem; [done|]. apply elem_of_app. left. left.
Qed.

(** On the path that [getProcessCgroup] hands on, the dash step of
    [normalizeCgroup] has nothing to do. *)
Lemma normalizeCgroup_dash_unreachable path :
  "-"%char ∉ path → Contains (TrimSpace (Base path)) "-" = false.
Proof.
  intros Hpath. change (str "-") with ["-"%char]. apply Contains_byte_false.
  intros [Hin|[Hin|Hin]]%elem_of_TrimSpace%elem_of_Base; done.
Qed.

(** C10: whenever [getProcessCgroup] succeeds, the identifier it returns
    holds no '-' byte: the pre-split hands a path without a dash to
    [normalizeCgroup], whose own test for a dash is then false, and
    [normalizeCgroup] returns a part of that path (or "/"). *)
Theorem getProcessCgroup_no_dash sys procfs pid id :
  getProcessCgroup sys procfs pid = Ok id →
  ("-"%char ∉ id)
  ∧ ∃ cgrouppath,
      id = normalizeCgroup cgrouppath
      ∧ ("-"%char ∉ cgrouppath)
      ∧ Contains (TrimSpace (Base cgrouppath)) "-" = false.
Proof.
  unfold getProcessCgroup.
  destruct (ReadFile sys (cgroupFile procfs pid)) as [bytes|]; [|done].
  set (path0 := extractCgroup (Split bytes newline)).
  set (path := if Contains path0 "-" then last_part (Split path0 "-") else path0).
  assert (Hpath : "-"%char ∉ path).
  { subst path. change (str "-") with ["-"%char].
    destruct (Contains path0 ["-"%char]) eqn:E.
    - apply last_part_Split_free.
    - intros Hin%Contains_byte_true. congruence. }
  case_bool_decide; [done|]. intros [= <-]. split.
  - intros [Hin|[Hin|Hin]]%elem_of_normalizeCgroup; done.
  - exists path. split; [done|]. split; [done|].
    by apply normalizeCgroup_dash_unreachable.
Qed.

Lemma getProcessCgroup_no_dash_witness :
  getProcessCgroup (one_process "0::/system.slice/docker-abc.scope") "/proc" "1"
    = Ok (str "abc")
  ∧ ("-"%char ∉ str "abc")
  ∧ ∃ cgrouppath,
      str "abc" = normalizeCgroup cgrouppath
      ∧ ("-"%char ∉ cgrouppath)
      ∧ Contains (TrimSpace (Base cgrouppath)) "-" = false.
Proof.
  split; [reflexivity|].
  apply (getProcessCgroup_no_dash
           (one_process "0::/system.slice/docker-abc.scope") "/proc" "1").
  reflexivity.
Defined.

(** X18: a one-line file "0::/kubepods/besteffort/pod<uid>/<id>" that
    is the line alone, with no newline at its end (no newline in <uid>),
    where <id> is not empty, holds none of '-', '.', '/', ':' and
    newline and has no white space around it: [getProcessCgroup]
    returns <id>; the path it works on is what follows the last ':' of
    the line. *)
Theorem getProcessCgroup_v2_single_line sys procfs pid uid id :
  ReadFile sys (cgroupFile procfs pid)
    = Ok ("0::/kubepods/besteffort/pod" ++ uid ++ "/" ++ id) →
  none_of newline uid = true →
  id ≠ [] → none_of ("-./:" ++ newline) id = true → TrimSpace id = id →
  getProcessCgroup sys procfs pid = Ok id
  ∧ extractCgroup (Split ("0::/kubepods/besteffort/pod" ++ uid ++ "/" ++ id) newline)
    = last_part (Split ("0::/kubepods/besteffort/pod" ++ uid ++ "/" ++ id) ":").
Proof.
  intros Hread Huid Hne Hfree Htrim. split.
  - by apply (getProcessCgroup_segment sys procfs pid []
                ("0::/kubepods/besteffort/pod" ++ uid) id []).
  - unfold newline. rewrite Split_byte_absent; [done|].
    apply (none_of_elem newline); [|left].
    rewrite !none_of_app, Huid.
    rewrite (none_of_subseteq ("-./:" ++ newline) newline id); [done| |done].
    intros c ->%list_elem_of_singleton. by repeat constructor.
Qed.

Lemma getProcessCgroup_v2_single_line_witness :
  getProcessCgroup
    (one_process "0::/kubepods/besteffort/pod7709c1d5-447c-428f-bed9-8ddec35c93f4/abc123")
    "/proc" "1" = Ok (str "abc123")
  ∧ extractCgroup
      (Split ("0::/kubepods/besteffort/pod"
              ++ "7709c1d5-447c-428f-bed9-8ddec35c93f4" ++ "/" ++ "abc123") newline)
    = last_part
        (Split ("0::/kubepods/besteffort/pod"
                ++ "7709c1d5-447c-428f-bed9-8ddec35c93f4" ++ "/" ++ "abc123") ":").
Proof.
  apply (getProcessCgroup_v2_single_line
           (one_process "0::/kubepods/besteffort/pod7709c1d5-447c-428f-bed9-8ddec35c93f4/abc123")
           "/proc" "1" "7709c1d5-447c-428f-bed9-8ddec35c93f4" "abc123");
    [reflexivity|reflexivity|discriminate|reflexivity|reflexivity].
Defined.

(** The conditions on <id> are needed on such a file: "a:b", "a/b" and
    " ab" are not empty and hold neither a dash nor a dot, yet their
    one-line files are resolved to "b" (the part after the last ':'),
    to "b" (the base name) and to "ab" (without the white space). *)
Example getProcessCgroup_v2_other_identifiers :
  (str "a:b" ≠ [] ∧ none_of "-." "a:b" = true
   ∧ none_of newline ("0::/kubepods/besteffort/pod" ++ "u" ++ "/" ++ "a:b") = true
   ∧ getProcessCgroup
       (one_process ("0::/kubepods/besteffort/pod" ++ "u" ++ "/" ++ "a:b"))
       "/proc" "1" = Ok (str "b")
   ∧ getProcessCgroup
       (one_process ("0::/kubepods/besteffort/pod" ++ "u" ++ "/" ++ "a:b"))
       "/proc" "1" ≠ Ok (str "a:b"))
  ∧ (none_of "-." "a/b" = true
     ∧ getProcessCgroup
         (one_process ("0::/kubepods/besteffort/pod" ++ "u" ++ "/" ++ "a/b"))
         "/proc" "1" = Ok (str "b"))
  ∧ (none_of "-." " ab" = true
     ∧ getProcessCgroup
         (one_process ("0::/kubepods/besteffort/pod" ++ "u" ++ "/" ++ " ab"))
         "/proc" "1" = Ok (str "ab")).
Proof. repeat split; try reflexivity; discriminate. Qed.

(** C2 on the code: the one-line cgroup-v2 file
    "0::/kubepods/besteffort/pod<uid>/<id>" as the kernel writes it,
    ended by a newline, is not resolved to <id>.  For every <uid> and
    <id> without ':' and newline (every non-empty identifier without
    dash and dot among them), [strings.Split] yields two lines, the line
    and an empty one; the test [len(lines) == 1] fails, no line contains
    ":pids:", and [getProcessCgroup] returns the error "Cgroup path not
    found". *)
Theorem getProcessCgroup_v2_terminated_line sys procfs pid uid id :
  ReadFile sys (cgroupFile procfs pid)
    = Ok (("0::/kubepods/besteffort/pod" ++ uid ++ "/" ++ id) ++ newline) →
  none_of (":" ++ newline) uid = true → none_of (":" ++ newline) id = true →
  Split (("0::/kubepods/besteffort/pod" ++ uid ++ "/" ++ id) ++ newline) newline
    = ["0::/kubepods/besteffort/pod" ++ uid ++ "/" ++ id; []]
  ∧ getProcessCgroup sys procfs pid
    = Err (ErrCgroupPathNotFound pid
             ["0::/kubepods/besteffort/pod" ++ uid ++ "/" ++ id; []])
  ∧ getProcessCgroup sys procfs pid ≠ Ok id.
Proof.
  intros Hread Huid Hid.
  destruct (getProcessCgroup_unified_terminated sys procfs pid uid id)
    as [Hsplit Herr]; [done..|].
  split; [done|]. split; [done|]. by rewrite Herr.
Qed.

Lemma getProcessCgroup_v2_terminated_line_witness :
  let uid := str "7709c1d5-447c-428f-bed9-8ddec35c93f4" in
  let id := str "abc123" in
  let sys :=
    one_process (("0::/kubepods/besteffort/pod" ++ uid ++ "/" ++ id) ++ newline) in
  (id ≠ [] ∧ none_of "-." id = true)
  ∧ Split (("0::/kubepods/besteffort/pod" ++ uid ++ "/" ++ id) ++ newline) newline
    = ["0::/kubepods/besteffort/pod" ++ uid ++ "/" ++ id; []]
  ∧ getProcessCgroup sys "/proc" "1"
    = Err (ErrCgroupPathNotFound "1"
             ["0::/kubepods/besteffort/pod" ++ uid ++ "/" ++ id; []])
  ∧ getProcessCgroup sys "/proc" "1" ≠ Ok id.
Proof.
  intros uid id sys. split; [split; [discriminate|reflexivity]|].
  apply (getProcessCgroup_v2_terminated_line sys "/proc" "1" uid id);
    reflexivity.
Defined.

(** C8, as amended: for a file that holds the line "5:pids:/docker/<id>",
    where no earlier line contains ":pids:" and <id> is not empty, holds
    none of '-', '.', '/', ':' and newline and has no white space around
    it, [extractCgroup] takes what follows the last ':' of that line and
    [getProcessCgroup] returns <id>. *)
Theorem getProcessCgroup_v1_pids_line sys procfs pid before id after :
  ReadFile sys (cgroupFile procfs pid)
    = Ok (Join (before ++ ("5:pids:/docker/" ++ id) :: after) "010"%char) →
  forallb (none_of newline) (before ++ after) = true →
  forallb (λ l, negb (Contains l ":pids:")) before = true →
  id ≠ [] → none_of ("-./:" ++ newline) id = true → TrimSpace id = id →
  getProcessCgroup sys procfs pid = Ok id
  ∧ extractCgroup (before ++ ("5:pids:/docker/" ++ id) :: after) = "/docker/" ++ id.
Proof.
  intros Hread Hlines Hbefore Hne Hfree Htrim.
  assert (Hsel : selected before ("5:pids:/docker/" ++ id) after = true).
  { unfold selected. rewrite Hbefore. apply orb_true_r. }
  split.
  - by apply (getProcessCgroup_segment sys procfs pid before "5:pids:/docker" id after).
  - rewrite extractCgroup_selected by done.
    change (str ":") with [":"%char].
    apply (last_part_Split_last "5:pids" ("/docker/" ++ id)).
    cbn [str list_ascii_of_string app]. rewrite !not_elem_of_cons.
    repeat (split; [discriminate|]).
    eapply none_of_elem; [done|]. set_solver.
Qed.

Lemma getProcessCgroup_v1_pids_line_witness :
  getProcessCgroup
    (one_process (Join [str "11:cpu:/docker/abc123"; str "5:pids:/docker/abc123";
                        str "1:name=systemd:/docker/abc123"; []] "010"%char))
    "/proc" "1" = Ok (str "abc123")
  ∧ extractCgroup ([str "11:cpu:/docker/abc123"]
                   ++ ("5:pids:/docker/" ++ "abc123")
                   :: [str "1:name=systemd:/docker/abc123"; []])
    = "/docker/" ++ "abc123".
Proof.
  apply (getProcessCgroup_v1_pids_line
           (one_process (Join [str "11:cpu:/docker/abc123"; str "5:pids:/docker/abc123";
                               str "1:name=systemd:/docker/abc123"; []] "010"%char))
           "/proc" "1" [str "11:cpu:/docker/abc123"] "abc123"
           [str "1:name=systemd:/docker/abc123"; []]);
    [reflexivity|reflexivity|reflexivity|discriminate|reflexivity|reflexivity].
Defined.

(** C8 as stated fails: "a/b", "a:b" and " ab" are not empty and hold
    neither a dash nor a dot, yet a file with the line
    "5:pids:/docker/<id>" is resolved to "b" (the base name), to "b" (the
    part after the last ':') and to "ab" (without the white space). *)
Lemma getProcessCgroup_v1_pids_line_counterexample :
  (str "a/b" ≠ [] ∧ none_of "-." "a/b" = true
   ∧ getProcessCgroup
       (one_process (Join [str "11:cpu:/docker/a/b"; "5:pids:/docker/" ++ "a/b";
                           str "1:name=systemd:/docker/a/b"; []] "010"%char))
       "/proc" "1" = Ok (str "b")
   ∧ getProcessCgroup
       (one_process (Join [str "11:cpu:/docker/a/b"; "5:pids:/docker/" ++ "a/b";
                           str "1:name=systemd:/docker/a/b"; []] "010"%char))
       "/proc" "1" ≠ Ok (str "a/b"))
  ∧ (none_of "-." "a:b" = true
     ∧ getProcessCgroup
         (one_process (Join [str "11:cpu:/"; "5:pids:/docker/" ++ "a:b"; []] "010"%char))
         "/proc" "1" = Ok (str "b"))
  ∧ (none_of "-." " ab" = true
     ∧ getProcessCgroup
         (one_process (Join [str "11:cpu:/"; "5:pids:/docker/" ++ " ab"; []] "010"%char))
         "/proc" "1" = Ok (str "ab")).
Proof. repeat split; try reflexivity; discriminate. Qed.

(** C3, as amended: for every base name that contains a '-', the dash
    step of [normalizeCgroup] drops everything up to and including the
    first '-' and keeps what follows it. *)
Theorem normalizeCgroup_dash_first basename :
  Contains basename "-" = true →
  ∃ before after,
    basename = before ++ "-" ++ after
    ∧ Contains before "-" = false
    ∧ normalizeCgroup_dash basename = after.
Proof.
  intros Hdash. change (str "-") with ["-"%char] in *.
  assert (Hin : "-"%char ∈ basename).
  { rewrite Contains_byte in Hdash. by apply bool_decide_eq_true in Hdash. }
  apply list_elem_of_split_l in Hin as (before & after & -> & Hbefore).
  exists before, after. split; [done|]. split; [by apply Contains_byte_false|].
  unfold normalizeCgroup_dash. change (str "-") with ["-"%char].
  rewrite Hdash, Index_byte_first by done.
  replace (before ++ "-"%char :: after) with ((before ++ ["-"%char]) ++ after)
    by (by rewrite <- app_assoc).
  replace (len before + 1) with (len (before ++ ["-"%char]))
    by (rewrite len_app; reflexivity).
  apply from_app_len.
Qed.

Lemma normalizeCgroup_dash_first_witness :
  ∃ before after,
    str "a-b-c.scope" = before ++ "-" ++ after
    ∧ Contains before "-" = false
    ∧ normalizeCgroup_dash "a-b-c.scope" = after.
Proof. apply (normalizeCgroup_dash_first "a-b-c.scope"). reflexivity. Defined.

(** C3 as stated fails: of "a-b-c.scope" the dash step keeps
    "b-c.scope", not the part "c.scope" after the last dash, and
    [normalizeCgroup] returns "b-c". *)
Lemma normalizeCgroup_dash_last_counterexample :
  Contains "a-b-c.scope" "-" = true
  ∧ from (str "a-b-c.scope") (LastIndex "a-b-c.scope" "-" + 1) = str "c.scope"
  ∧ normalizeCgroup_dash "a-b-c.scope" = str "b-c.scope"
  ∧ normalizeCgroup_dash "a-b-c.scope" ≠ str "c.scope"
  ∧ normalizeCgroup "a-b-c.scope" = str "b-c".
Proof. repeat split; try reflexivity; discriminate. Qed.
End normalizer_claims.

(** * The container index builder *)

Section alnum.
Import GoStrings.
Implicit Types (s X : gostring) (c x : ascii).

Lemma alnum_solid c : is_alnum c = true → solid c = true.
Proof. every_byte c. Qed.

Lemma alnum_not_control c :
  is_alnum c = true → (byte c <? 32) || (byte c =? 127) = false.
Proof. every_byte c. Qed.

Lemma alnum_not_percent_plus c :
  is_alnum c = true → c ≠ "%"%char ∧ c ≠ "+"%char.
Proof. every_byte c. Qed.

Lemma alnum_not_elem X c :
  forallb is_alnum X = true → is_alnum c = false → c ∉ X.
Proof.
  rewrite forallb_forall. intros HX Hc Hin%list_elem_of_In%HX. congruence.
Qed.


End alnum.

Section url.
Import GoStrings Url.
Implicit Types (s X : gostring) (c x : ascii).

Lemma HasSuffix_byte_absent s c : c ∉ s → HasSuffix s [c] = false.
Proof.
  intros H. destruct (HasSuffix s [c]) eqn:E; [|done].
  by apply HasSuffix_byte in E.
Qed.

Lemma Cut_byte_absent s c : c ∉ s → Cut s [c] = (s, [], false).
Proof. intros H. unfold Cut. by rewrite Index_byte_absent. Qed.

Lemma alnum_no_control X :
  forallb is_alnum X = true → stringContainsCTLByte X = false.
Proof.
  unfold stringContainsCTLByte. induction X as [|x X IH]; [done|].
  cbn [forallb existsb]. intros [Hx HX]%andb_true_iff.
  by rewrite alnum_not_control, IH.
Qed.

(** Letters and digits need no escaping in a host. *)
Lemma alnum_unescape_check X :
  forallb is_alnum X = true → unescape_check encodeHost X = None.
Proof.
  induction X as [|x X IH]; [done|].
  cbn [forallb]. intros [Hx HX]%andb_true_iff.
  cbn [unescape_check].
  destruct (alnum_not_percent_plus x Hx) as [Hp _].
  rewrite (bool_decide_eq_false_2 _ Hp).
  unfold shouldEscape. rewrite Hx, andb_false_r. by apply IH.
Qed.

Lemma alnum_unescape_build X :
  forallb is_alnum X = true → unescape_build encodeHost X = X.
Proof.
  induction X as [|x X IH]; [done|].
  cbn [forallb]. intros [Hx HX]%andb_true_iff.
  cbn [unescape_build].
  destruct (alnum_not_percent_plus x Hx) as [Hp Hplus].
  rewrite (bool_decide_eq_false_2 _ Hp), (bool_decide_eq_false_2 _ Hplus).
  cbn [andb]. f_equal. by apply IH.
Qed.

Lemma alnum_unescape_host X :
  forallb is_alnum X = true → unescape X encodeHost = Ok X.
Proof.
  intros HX. unfold unescape.
  by rewrite alnum_unescape_check, alnum_unescape_build.
Qed.

Lemma alnum_parseHost X : forallb is_alnum X = true → parseHost X = Ok X.
Proof.
  intros HX. unfold parseHost.
  assert (HasPrefix X "[" = false) as ->.
  { destruct X as [|x X]; [done|]. cbn [forallb] in HX.
    apply andb_true_iff in HX as [Hx _].
    change (str "[") with ["["%char]. rewrite HasPrefix_byte.
    apply bool_decide_eq_false_2. intros ->. discriminate. }
  change (str ":") with [":"%char].
  rewrite LastIndex_byte_absent by (by apply alnum_not_elem).
  by apply alnum_unescape_host.
Qed.

Lemma alnum_parseAuthority X :
  forallb is_alnum X = true → parseAuthority X = Ok (None, X).
Proof.
  intros HX. unfold parseAuthority.
  change (str "@") with ["@"%char].
  rewrite LastIndex_byte_absent by (by apply alnum_not_elem).
  by rewrite alnum_parseHost.
Qed.

(** The index builder's view of a container identifier of letters and
    digits: [url.Parse] of "docker://X" succeeds with host [X]. *)
Lemma Parse_docker_alnum X :
  forallb is_alnum X = true →
  Parse ("docker://" ++ X)
  = Ok {| Scheme := "docker"; Opaque := []; User := None; Host := X;
          Path := []; OmitHost := false; ForceQuery := false;
          RawQuery := []; Fragment := [] |}.
Proof.
  intros HX. unfold Parse.
  change (str "#") with ["#"%char].
  rewrite Cut_byte_absent.
  2:{ cbn [str list_ascii_of_string app]. rewrite !not_elem_of_cons.
      repeat (split; [discriminate|]). by apply alnum_not_elem. }
  rewrite bool_decide_eq_true_2 by done.
  unfold parse.
  assert (stringContainsCTLByte ("docker://" ++ X) = false) as ->.
  { unfold stringContainsCTLByte. rewrite existsb_app.
    apply orb_false_iff. split; [reflexivity|by apply alnum_no_control]. }
  rewrite andb_false_r.
  rewrite (bool_decide_eq_false_2 (_ = str "*")) by discriminate.
  change (getScheme ("docker://" ++ X)) with
    (Ok (E:=Error) (str "docker", "/"%char :: "/"%char :: X)).
  change (ToLower "docker") with (str "docker").
  change (str "?") with ["?"%char].
  assert (Hq : "?"%char ∉ "/"%char :: "/"%char :: X).
  { rewrite !not_elem_of_cons. repeat (split; [discriminate|]).
    by apply alnum_not_elem. }
  cbv beta iota.
  rewrite HasSuffix_byte_absent, Cut_byte_absent by done.
  cbv beta iota. cbn [andb].
  change (str "/") with ["/"%char]. rewrite HasPrefix_byte.
  rewrite (bool_decide_eq_true_2 ("/"%char = "/"%char)) by done.
  change (bool_decide (ToLower "docker" = [])) with false.
  cbn [negb andb orb].
  change (HasPrefix ("/"%char :: "/"%char :: X) "//") with true.
  cbv beta iota.
  change (from ("/"%char :: "/"%char :: X) 2) with X.
  rewrite Index_byte_absent by (by apply alnum_not_elem).
  cbv beta iota.
  change (0 <=? -1) with false. cbv beta iota.
  rewrite alnum_parseAuthority by done.
  reflexivity.
Qed.
End url.

Section index_claims.
Import GoStrings GoPath.
Implicit Types (sys : System) (procfs pid uid X name : gostring).


(** An identifier that [url.Parse] refuses leaves no entry. *)
Lemma buildContainerIdsMap_skips_refused first second malformed e :
  Url.Parse malformed = Err e →
  buildContainerIdsMap
    [pod_with first [str "docker://abc123"]; pod_with second [malformed]]
  = {[ str "abc123" := pod_with first [str "docker://abc123"] ]}.
Proof.
  intros Hparse. unfold buildContainerIdsMap. cbn [foldl pod_with fmap list_fmap
    V1.ContainerStatuses V1.Status V1.ContainerID].
  rewrite Hparse.
  change (str "docker://abc123") with ("docker://" ++ "abc123").
  by rewrite Parse_docker_alnum.
Qed.

(** C1 on the code: a container identifier without "://" that
    [url.Parse] accepts (here "abc123": a relative path with an empty
    host) is not skipped; it adds the key "" for its pod, next to the key
    "abc123" of the first pod. *)
Theorem buildContainerIdsMap_schemeless_entry :
  Contains "abc123" "://" = false
  ∧ buildContainerIdsMap
      [pod_with "first" [str "docker://abc123"]; pod_with "second" [str "abc123"]]
    = <[ [] := pod_with "second" [str "abc123"] ]>
        {[ str "abc123" := pod_with "first" [str "docker://abc123"] ]}
  ∧ buildContainerIdsMap
      [pod_with "first" [str "docker://abc123"]; pod_with "second" [str "abc123"]]
    ≠ {[ str "abc123" := pod_with "first" [str "docker://abc123"] ]}.
Proof.
  split; [reflexivity|]. split; [vm_compute; reflexivity|].
  intros H. apply (f_equal (λ m : gmap gostring V1.Pod, m !! [])) in H.
  vm_compute in H. discriminate.
Qed.




End index_claims.

(** * The process enumerators *)

Section enumerator_claims.

(** The example of the specification: of the directories "1", "2",
    "abc" and "17" the enumerators keep 1, 2 and 17. *)
Example findContainerPidsHost_mixed :
  findContainerPidsHost
    (system_of [dir "1"; dir "2"; dir "abc"; dir "17"] [] []) "/proc" None
  = ([1; 2; 17], None).
Proof. vm_compute. reflexivity. Qed.

Example findContainerPids_mixed :
  findContainerPids
    (system_of [dir "1"; dir "2"; dir "abc"; dir "17"]
       [(cgroupFile "/proc" "1", str "0::/docker/abc123");
        (cgroupFile "/proc" "2", str "0::/docker/abc123");
        (cgroupFile "/proc" "abc", str "0::/docker/abc123");
        (cgroupFile "/proc" "17", str "0::/docker/abc123")] [])
    "/proc" {[ str "abc123" := pod_with "web" [str "docker://abc123"] ]}
  = (list_to_map [(1, pod_with "web" [str "docker://abc123"]);
                  (2, pod_with "web" [str "docker://abc123"]);
                  (17, pod_with "web" [str "docker://abc123"])], None).
Proof. vm_compute. reflexivity. Qed.

(** What the filter of the enumerators tests: the name contains a
    digit. *)
Lemma numberRegex_matches name :
  Regexp.MatchString numberRegex name = true
  ↔ ∃ c, c ∈ name ∧ is_digit c = true.
Proof.
  cbn [Regexp.MatchString numberRegex].
  induction name as [|x name IH]; cbn [Regexp.digits_anywhere Regexp.digits_at].
  - split; [done|]. by intros (c & ?%elem_of_nil & _).
  - rewrite orb_true_iff, IH. split.
    + intros [Hx|(c & Hc & Hd)]; [exists x|exists c]; split; try done.
      * left.
      * by right.
    + intros (c & [->|Hc]%elem_of_cons & Hd); [by left|right; by exists c].
Qed.

(** Entirely numeric names pass the filter. *)
Lemma numberRegex_accepts_numeric name :
  entirely_numeric name = true → Regexp.MatchString numberRegex name = true.
Proof.
  unfold entirely_numeric. intros [Hne Hall]%andb_true_iff.
  apply numberRegex_matches. destruct name as [|x name]; [done|].
  cbn [forallb] in Hall. apply andb_true_iff in Hall as [Hx _].
  exists x. split; [left|done].
Qed.

(** C5 on the code: [numberRegex] is not anchored, so a directory whose
    name merely contains a digit passes the filter.  The name "+17" is
    not entirely numeric, yet both enumerators return the PID 17 for it
    ([strconv.Atoi] accepts the sign); for "1a" the cluster enumerator
    goes on to read the cgroup file of "1a" and only then fails to
    convert the name. *)
Theorem numberRegex_not_anchored :
  entirely_numeric "+17" = false
  ∧ Regexp.MatchString numberRegex "+17" = true
  ∧ findContainerPidsHost (system_of [dir "+17"] [] []) "/proc" None = ([17], None)
  ∧ findContainerPids
      (system_of [dir "+17"] [(cgroupFile "/proc" "+17", str "0::/docker/abc123")] [])
      "/proc" {[ str "abc123" := pod_with "web" [str "docker://abc123"] ]}
    = ({[ 17 := pod_with "web" [str "docker://abc123"] ]}, None)
  ∧ entirely_numeric "1a" = false
  ∧ Regexp.MatchString numberRegex "1a" = true.
Proof. repeat split; vm_compute; reflexivity. Qed.

End enumerator_claims.

(** * The reconciliation passes *)

Section reconciler_claims.
Implicit Types (sys : System) (engine : Engine) (order : RangeOrder)
  (tracer : Tracer) (h : list Call).

Lemma bind_run {A B} (m : Action A) (k : A → Action B) h :
  bind m k h = k (m h).1 (m h).2.
Proof. unfold bind. by destruct (m h). Qed.

Lemma logged_run engine c h :
  (logged engine c h).2
  = h ++ c :: match engine h c with Some err => [LogError err] | None => [] end.
Proof.
  unfold logged. rewrite bind_run. cbn [call fst snd].
  destruct (engine h c) as [err|]; [|done].
  rewrite bind_run. cbn [call ret fst snd]. by rewrite <- app_assoc.
Qed.

(** The calls of the loop of registrations. *)
Lemma forEach_calls engine p pids h :
  ∃ new,
    (forEach pids (λ pid,
       bind (logged engine (AddSSLLibPid p pid))
            (λ _, logged engine (AddGoPid p pid))) h).2 = h ++ new
    ∧ Forall (registration_of p pids) new
    ∧ ∀ pid, pid ∈ pids → AddSSLLibPid p pid ∈ new ∧ AddGoPid p pid ∈ new.
Proof.
  revert h. induction pids as [|pid pids IH]; intros h; cbn [forEach].
  - exists []. split; [by rewrite app_nil_r|]. split; [done|].
    by intros pid ?%elem_of_nil.
  - rewrite !bind_run, !logged_run.
    set (log1 := match engine h _ with Some err => [LogError err] | None => [] end).
    set (log2 := match engine (h ++ _ :: log1) _ with
                 | Some err => [LogError err] | None => [] end).
    destruct (IH ((h ++ AddSSLLibPid p pid :: log1) ++ AddGoPid p pid :: log2))
      as (new & -> & Hnew & Hall).
    exists (AddSSLLibPid p pid :: log1 ++ AddGoPid p pid :: log2 ++ new).
    split; [by rewrite <- !app_assoc|]. split.
    + assert (Hlog : ∀ (o : option error),
                Forall (registration_of p (pid :: pids))
                  match o with Some err => [LogError err] | None => [] end).
      { intros [err|]; [|done]. apply Forall_cons. split; [|done].
        right. by exists err. }
      apply Forall_cons. split; [left; exists pid; split; [left|by left]|].
      apply Forall_app. split; [apply Hlog|].
      apply Forall_cons. split; [left; exists pid; split; [left|by right]|].
      apply Forall_app. split; [apply Hlog|].
      eapply Forall_impl; [done|].
      intros c [(pid' & Hin & Hc)|Herr]; [|by right].
      left. exists pid'. split; [by right|done].
    + intros pid' [->|Hin]%elem_of_cons.
      * split; [left|]. right. apply elem_of_app. right. left.
      * destruct (Hall pid' Hin) as [Hssl Hgo].
        split; right; apply elem_of_app; right; right; apply elem_of_app; by right.
Qed.

(** C6: in a pass of [UpdateTargets] whose process-table listing
    succeeds, whatever calls were made before it and whatever the engine
    answers to any call, the pass returns no error, and the calls it
    makes after clearing the targets hold both registrations of every
    discovered PID. *)
Theorem UpdateTargets_registers_all sys engine order tracer pods entries h :
  range_order_ok order →
  ReadDir sys (procfs tracer) = Ok entries →
  (UpdateTargets sys engine order tracer pods h).1 = None
  ∧ ∃ new,
      (UpdateTargets sys engine order tracer pods h).2 = h ++ ClearPids :: new
      ∧ ∀ pid,
          is_Some ((findContainerPids sys (procfs tracer)
                      (buildContainerIdsMap pods)).1 !! pid) →
          AddSSLLibPid (procfs tracer) pid ∈ new
          ∧ AddGoPid (procfs tracer) pid ∈ new.
Proof.
  intros Horder Hdir. unfold UpdateTargets.
  assert (Herr : (findContainerPids sys (procfs tracer)
                    (buildContainerIdsMap pods)).2 = None)
    by (unfold findContainerPids; by rewrite Hdir).
  destruct (findContainerPids sys (procfs tracer) (buildContainerIdsMap pods))
    as [containerPids err]. cbn in Herr. subst err. cbn [fst].
  rewrite !bind_run. cbn [ret call fst snd]. split; [done|].
  destruct (forEach_calls engine (procfs tracer) (order containerPids)
              (h ++ [ClearPids])) as (new & -> & _ & Hall).
  exists new. split; [by rewrite <- app_assoc|].
  intros pid [pod Hpod]. apply Hall. rewrite (Horder containerPids).
  apply list_elem_of_fmap. exists (pid, pod). split; [done|].
  by apply elem_of_map_to_list.
Qed.

Lemma UpdateTargets_registers_all_witness :
  let sys :=
    system_of [dir "5"; dir "6"]
      [(cgroupFile "/proc" "5", str "0::/docker/abc123");
       (cgroupFile "/proc" "6", str "0::/docker/abc123")] [] in
  let engine :=
    engine_refusing (λ c, match c with
                          | AddSSLLibPid _ pid => pid =? 5
                          | _ => false
                          end) in
  let tracer := {| procfs := "/proc" |} in
  let pods := [pod_with "web" [str "docker://abc123"]] in
  let h := (UpdateTargets sys engine listed_order tracer pods []).2 in
  (UpdateTargets sys engine listed_order tracer pods h).1 = None
  ∧ ∃ new,
      (UpdateTargets sys engine listed_order tracer pods h).2 = h ++ ClearPids :: new
      ∧ ∀ pid,
          is_Some ((findContainerPids sys (procfs tracer)
                      (buildContainerIdsMap pods)).1 !! pid) →
          AddSSLLibPid (procfs tracer) pid ∈ new
          ∧ AddGoPid (procfs tracer) pid ∈ new.
Proof.
  intros sys engine tracer pods h.
  apply (UpdateTargets_registers_all sys engine listed_order tracer pods
           [dir "5"; dir "6"] h).
  - intros m. reflexivity.
  - reflexivity.
Defined.

(** The example of the specification: the engine refuses the
    native-library target of PID 5; the pass logs the error, goes on to
    the managed-runtime target of PID 5 and to PID 6, and returns no
    error. *)
Example UpdateTargets_refused_once :
  UpdateTargets
    (system_of [dir "5"; dir "6"]
       [(cgroupFile "/proc" "5", str "0::/docker/abc123");
        (cgroupFile "/proc" "6", str "0::/docker/abc123")] [])
    (engine_refusing (λ c, match c with
                           | AddSSLLibPid _ pid => pid =? 5
                           | _ => false
                           end))
    (λ _, [5; 6]) {| procfs := "/proc" |}
    [pod_with "web" [str "docker://abc123"]] []
  = (None, [ClearPids;
            AddSSLLibPid "/proc" 5; LogError (EngineError 1); AddGoPid "/proc" 5;
            AddSSLLibPid "/proc" 6; AddGoPid "/proc" 6]).
Proof. vm_compute. reflexivity. Qed.

(** A second pass over the same processes makes all its calls again. *)
Example UpdateTargets_second_pass :
  let sys :=
    system_of [dir "5"; dir "6"]
      [(cgroupFile "/proc" "5", str "0::/docker/abc123");
       (cgroupFile "/proc" "6", str "0::/docker/abc123")] [] in
  let pass :=
    UpdateTargets sys (engine_refusing (λ _, false)) (λ _, [5; 6])
      {| procfs := "/proc" |} [pod_with "web" [str "docker://abc123"]] in
  pass (pass []).2
  = (None, [ClearPids; AddSSLLibPid "/proc" 5; AddGoPid "/proc" 5;
            AddSSLLibPid "/proc" 6; AddGoPid "/proc" 6;
            ClearPids; AddSSLLibPid "/proc" 5; AddGoPid "/proc" 5;
            AddSSLLibPid "/proc" 6; AddGoPid "/proc" 6]).
Proof. vm_compute. reflexivity. Qed.
End reconciler_claims.

(** * Start-up *)

Section startup_claims.
Implicit Types (sys : System) (engine : Engine) (h : list Call).

(** C4, as amended: with both environment variables set and the engine
    initialised, the global targets are registered only after the first
    reconciliation pass has succeeded.  When [updateTargets] returns an
    error, [createTracer] returns it at once and makes no further call;
    otherwise it registers the native-library target and, when that
    succeeded, the managed-runtime target. *)
Theorem createTracer_globals_after_discovery sys engine procfs_flag h :
  let init := Init (Getpagesize sys * 100) (Getpagesize sys) procfs_flag in
  let discover := updateTargets (GetTargetedPods sys) in
  let ssl := globalSSLLibTarget procfs_flag (Getenv sys "KUBESHARK_GLOBAL_LIBSSL_PID") in
  let go := globalGoTarget procfs_flag (Getenv sys "KUBESHARK_GLOBAL_GOLANG_PID") in
  Getenv sys "KUBESHARK_GLOBAL_LIBSSL_PID" ≠ [] →
  Getenv sys "KUBESHARK_GLOBAL_GOLANG_PID" ≠ [] →
  engine h init = None →
  createTracer sys engine procfs_flag h
  = match engine (h ++ [init]) discover with
    | Some err => ({| procfs := procfs_flag |}, Some err, h ++ [init; discover])
    | None =>
        match engine (h ++ [init; discover]) ssl with
        | Some err =>
            ({| procfs := procfs_flag |}, Some err, h ++ [init; discover; ssl])
        | None =>
            ({| procfs := procfs_flag |},
             engine (h ++ [init; discover; ssl]) go,
             h ++ [init; discover; ssl; go])
        end
    end.
Proof.
  intros init discover ssl go Hssl Hgo Hinit.
  unfold createTracer. fold init discover.
  rewrite bind_run. cbn [call fst snd]. rewrite Hinit.
  rewrite bind_run. cbn [call fst snd].
  destruct (engine (h ++ [init]) discover) as [err|] eqn:Hdiscover.
  { cbn [ret]. by rewrite <- app_assoc. }
  rewrite (bool_decide_eq_false_2 _ Hssl), (bool_decide_eq_false_2 _ Hgo).
  cbn [negb]. fold ssl go.
  rewrite bind_run. cbn [call fst snd].
  rewrite <- !app_assoc. cbn [app].
  destruct (engine (h ++ [init; discover]) ssl) as [err|] eqn:Hlib; [done|].
  rewrite bind_run. cbn [call ret fst snd].
  by rewrite <- !app_assoc.
Qed.

Lemma createTracer_globals_after_discovery_witness :
  let sys :=
    system_of [] [] [(str "KUBESHARK_GLOBAL_LIBSSL_PID", str "42");
                     (str "KUBESHARK_GLOBAL_GOLANG_PID", str "43")] in
  createTracer sys (engine_refusing (λ _, false)) "/proc" []
  = ({| procfs := "/proc" |}, None,
     [Init 409600 4096 "/proc"; updateTargets [];
      globalSSLLibTarget "/proc" "42"; globalGoTarget "/proc" "43"]).
Proof.
  intros sys.
  rewrite (createTracer_globals_after_discovery sys (engine_refusing (λ _, false))
             "/proc" []); [reflexivity|discriminate|discriminate|reflexivity].
Defined.

(** C4 as stated fails: both variables are set and the engine is
    initialised, but the first reconciliation pass fails; [createTracer]
    returns that error and registers neither global target. *)
Lemma createTracer_globals_counterexample :
  let sys :=
    system_of [] [] [(str "KUBESHARK_GLOBAL_LIBSSL_PID", str "42");
                     (str "KUBESHARK_GLOBAL_GOLANG_PID", str "43")] in
  let engine :=
    engine_refusing (λ c, match c with updateTargets _ => true | _ => false end) in
  Getenv sys "KUBESHARK_GLOBAL_LIBSSL_PID" = str "42"
  ∧ Getenv sys "KUBESHARK_GLOBAL_GOLANG_PID" = str "43"
  ∧ createTracer sys engine "/proc" []
    = ({| procfs := "/proc" |}, Some (EngineError 1),
       [Init 409600 4096 "/proc"; updateTargets []])
  ∧ (globalSSLLibTarget "/proc" "42" ∉ (createTracer sys engine "/proc" []).2)
  ∧ (globalGoTarget "/proc" "43" ∉ (createTracer sys engine "/proc" []).2).
Proof.
  intros sys engine.
  assert (Hrun : createTracer sys engine "/proc" []
                 = ({| procfs := "/proc" |}, Some (EngineError 1),
                    [Init 409600 4096 "/proc"; updateTargets []]))
    by (vm_compute; reflexivity).
  split; [vm_compute; reflexivity|]. split; [vm_compute; reflexivity|].
  split; [done|]. rewrite Hrun. cbn [snd].
  split; rewrite !not_elem_of_cons;
    (split; [discriminate|]); (split; [discriminate|]); apply not_elem_of_nil.
Qed.
End startup_claims.

(** * Further properties of the container index *)

Section index_properties.
Implicit Types (pods : list V1.Pod) (pod : V1.Pod) (m : gmap gostring V1.Pod)
  (c : V1.ContainerStatus) (k : gostring).

(** What one container status adds to the index. *)
Lemma index_status_union m pod c :
  match Url.Parse (V1.ContainerID c) with
  | Err _ => m
  | Ok parsedUrl => <[Url.Host parsedUrl := pod]> m
  end
  = match Url.Parse (V1.ContainerID c) with
    | Err _ => ∅
    | Ok parsedUrl => <[Url.Host parsedUrl := pod]> ∅
    end ∪ m.
Proof.
  destruct (Url.Parse _) as [u|e].
  - by rewrite insert_empty, insert_union_singleton_l.
  - by rewrite (left_id_L ∅ (∪)).
Qed.

(** The inner loop started from [m] adds what it adds to the empty map. *)
Lemma index_pod_union m pod statuses :
  foldl (λ result container,
    match Url.Parse (V1.ContainerID container) with
    | Err _ => result
    | Ok parsedUrl => <[Url.Host parsedUrl := pod]> result
    end) m statuses
  = foldl (λ result container,
      match Url.Parse (V1.ContainerID container) with
      | Err _ => result
      | Ok parsedUrl => <[Url.Host parsedUrl := pod]> result
      end) ∅ statuses ∪ m.
Proof.
  revert m. induction statuses as [|c statuses IH]; intros m; cbn [foldl].
  - by rewrite (left_id_L ∅ (∪)).
  - rewrite IH, (IH (match Url.Parse _ with Ok _ => _ | Err _ => ∅ end)).
    rewrite (index_status_union m). by rewrite (assoc_L (∪)).
Qed.

(** The outer loop started from [m]. *)
Lemma index_pods_union m pods :
  foldl (λ result pod,
    foldl (λ result container,
      match Url.Parse (V1.ContainerID container) with
      | Err _ => result
      | Ok parsedUrl => <[Url.Host parsedUrl := pod]> result
      end) result (V1.ContainerStatuses (V1.Status pod))) m pods
  = buildContainerIdsMap pods ∪ m.
Proof.
  unfold buildContainerIdsMap.
  revert m. induction pods as [|pod pods IH]; intros m; cbn [foldl].
  - by rewrite (left_id_L ∅ (∪)).
  - rewrite IH, (IH (foldl _ ∅ _)).
    rewrite (index_pod_union m). by rewrite (assoc_L (∪)).
Qed.

(** X1: the index of a list of pods is the index of its later part,
    completed by the entries of its earlier part: on a shared identifier
    the later pod wins. *)
Theorem buildContainerIdsMap_app pods1 pods2 :
  buildContainerIdsMap (pods1 ++ pods2)
  = buildContainerIdsMap pods2 ∪ buildContainerIdsMap pods1.
Proof.
  unfold buildContainerIdsMap at 1. rewrite foldl_app.
  apply index_pods_union.
Qed.

(** An entry of the inner loop's result was there before or comes from a
    status of the pod. *)
Lemma index_pod_lookup m pod statuses k p :
  foldl (λ result container,
    match Url.Parse (V1.ContainerID container) with
    | Err _ => result
    | Ok parsedUrl => <[Url.Host parsedUrl := pod]> result
    end) m statuses !! k = Some p →
  m !! k = Some p
  ∨ p = pod ∧ ∃ c u, c ∈ statuses ∧ Url.Parse (V1.ContainerID c) = Ok u
                     ∧ Url.Host u = k.
Proof.
  revert m. induction statuses as [|c statuses IH]; intros m; cbn [foldl];
    [by left|].
  intros [Hm|(-> & c' & u & Hc' & Hu & Hk)]%IH.
  - destruct (Url.Parse (V1.ContainerID c)) as [u|e] eqn:E; [|by left].
    destruct (decide (Url.Host u = k)) as [<-|Hne].
    + rewrite lookup_insert_eq in Hm. injection Hm as <-.
      right. split; [done|]. exists c, u. split; [left|done].
    + rewrite lookup_insert_ne in Hm by done. by left.
  - right. split; [done|]. exists c', u. split; [by right|done].
Qed.

(** A status that parses is filed under its host for the pod. *)
Lemma index_pod_filed m pod statuses c u :
  c ∈ statuses → Url.Parse (V1.ContainerID c) = Ok u →
  foldl (λ result container,
    match Url.Parse (V1.ContainerID container) with
    | Err _ => result
    | Ok parsedUrl => <[Url.Host parsedUrl := pod]> result
    end) m statuses !! Url.Host u = Some pod.
Proof.
  intros Hc Hu.
  assert (Hkeep : ∀ statuses m, m !! Url.Host u = Some pod →
            foldl (λ result container,
              match Url.Parse (V1.ContainerID container) with
              | Err _ => result
              | Ok parsedUrl => <[Url.Host parsedUrl := pod]> result
              end) m statuses !! Url.Host u = Some pod).
  { clear. intros statuses. induction statuses as [|c statuses IH]; intros m Hm;
      cbn [foldl]; [done|].
    apply IH. destruct (Url.Parse (V1.ContainerID c)) as [u'|]; [|done].
    destruct (decide (Url.Host u' = Url.Host u)) as [->|Hne].
    - apply lookup_insert_eq.
    - by rewrite lookup_insert_ne. }
  revert m. induction statuses as [|c' statuses IH]; intros m;
    [by apply elem_of_nil in Hc|].
  cbn [foldl]. apply elem_of_cons in Hc as [<-|Hc].
  - apply Hkeep. rewrite Hu. apply lookup_insert_eq.
  - by apply IH.
Qed.

(** An entry of the outer loop's result was there before or comes from
    a pod of the list. *)
Lemma index_pods_lookup m pods k p :
  (buildContainerIdsMap pods ∪ m) !! k = Some p →
  m !! k = Some p
  ∨ p ∈ pods
    ∧ ∃ c u, c ∈ V1.ContainerStatuses (V1.Status p)
             ∧ Url.Parse (V1.ContainerID c) = Ok u ∧ Url.Host u = k.
Proof.
  rewrite <- index_pods_union. revert m.
  induction pods as [|pod pods IH]; intros m; cbn [foldl]; [by left|].
  intros [[Hm|(-> & H)]%index_pod_lookup|(Hin & H)]%IH.
  - by left.
  - right. split; [left|done].
  - right. split; [by right|done].
Qed.

(** X2: every entry of the index comes from the pod list: the pod is in
    the list and carries a container status that [url.Parse] accepts and
    whose host is the key. *)
Theorem buildContainerIdsMap_sound pods k p :
  buildContainerIdsMap pods !! k = Some p →
  p ∈ pods
  ∧ ∃ c u, c ∈ V1.ContainerStatuses (V1.Status p)
           ∧ Url.Parse (V1.ContainerID c) = Ok u ∧ Url.Host u = k.
Proof.
  intros H. destruct (index_pods_lookup ∅ pods k p) as [Hm|Hp]; [|done|done].
  by rewrite (right_id_L ∅ (∪)).
Qed.

Lemma buildContainerIdsMap_sound_witness :
  buildContainerIdsMap [pod_with "web" [str "docker://abc123"]] !! str "abc123"
    = Some (pod_with "web" [str "docker://abc123"])
  ∧ pod_with "web" [str "docker://abc123"] ∈ [pod_with "web" [str "docker://abc123"]]
  ∧ ∃ c u, c ∈ V1.ContainerStatuses (V1.Status (pod_with "web" [str "docker://abc123"]))
           ∧ Url.Parse (V1.ContainerID c) = Ok u ∧ Url.Host u = str "abc123".
Proof.
  split; [vm_compute; reflexivity|].
  apply (buildContainerIdsMap_sound [pod_with "web" [str "docker://abc123"]]).
  vm_compute. reflexivity.
Defined.

(** X3: a container status that [url.Parse] accepts is found in the
    index under its host, and it leads to the last pod of the list that
    carries a status with that host. *)
Theorem buildContainerIdsMap_last_pod pods1 pod pods2 c u :
  c ∈ V1.ContainerStatuses (V1.Status pod) →
  Url.Parse (V1.ContainerID c) = Ok u →
  (∀ pod' c' u', pod' ∈ pods2 → c' ∈ V1.ContainerStatuses (V1.Status pod') →
     Url.Parse (V1.ContainerID c') = Ok u' → Url.Host u' ≠ Url.Host u) →
  buildContainerIdsMap (pods1 ++ pod :: pods2) !! Url.Host u = Some pod.
Proof.
  intros Hc Hu Hlater.
  replace (pods1 ++ pod :: pods2) with ((pods1 ++ [pod]) ++ pods2)
    by (by rewrite <- app_assoc).
  unfold buildContainerIdsMap at 1. rewrite foldl_app, index_pods_union.
  rewrite lookup_union_r.
  - rewrite foldl_app. cbn [foldl]. by apply (index_pod_filed _ pod _ c u).
  - destruct (buildContainerIdsMap pods2 !! Url.Host u) as [p|] eqn:E; [|done].
    destruct (index_pods_lookup ∅ pods2 (Url.Host u) p)
      as [Hm|(Hp & c' & u' & Hc' & Hu' & Hk)];
      [by rewrite (right_id_L ∅ (∪))|done|].
    by destruct (Hlater p c' u').
Qed.

Lemma buildContainerIdsMap_last_pod_witness :
  buildContainerIdsMap
    ([pod_with "old" [str "docker://abc123"]]
     ++ pod_with "new" [str "docker://abc123"] :: [pod_with "other" [str "docker://def456"]])
    !! Url.Host {| Url.Scheme := "docker"; Url.Opaque := []; Url.User := None;
                   Url.Host := "abc123"; Url.Path := []; Url.OmitHost := false;
                   Url.ForceQuery := false; Url.RawQuery := []; Url.Fragment := [] |}
  = Some (pod_with "new" [str "docker://abc123"]).
Proof.
  apply (buildContainerIdsMap_last_pod [pod_with "old" [str "docker://abc123"]]
           (pod_with "new" [str "docker://abc123"])
           [pod_with "other" [str "docker://def456"]]
           {| V1.ContainerID := "docker://abc123" |}).
  - left.
  - vm_compute. reflexivity.
  - intros pod' c' u' ->%list_elem_of_singleton ->%list_elem_of_singleton Hu'.
    vm_compute in Hu'. injection Hu' as <-. discriminate.
Defined.
End index_properties.

(** * Further properties of the enumerators *)

Section enumerator_properties.
Implicit Types (sys : System) (procfs : gostring)
  (containerIds : gmap gostring V1.Pod) (entries : list Os.DirEntry).

(** The loop of [findContainerPids]: where an entry of its result comes
    from. *)
Lemma findContainerPids_loop_lookup sys procfs containerIds entries (pid : Z) pod :
  foldl (λ (result : gmap Z V1.Pod) pid,
    if negb (Os.IsDir pid) then result
    else if negb (Regexp.MatchString numberRegex (Os.Name pid)) then result
    else
      match getProcessCgroup sys procfs (Os.Name pid) with
      | Err _ => result
      | Ok cgroup =>
          match containerIds !! cgroup with
          | None => result
          | Some pod =>
              match Strconv.Atoi (Os.Name pid) with
              | Err _ => result
              | Ok pidNumber => <[uint32 pidNumber := pod]> result
              end
          end
      end) ∅ entries !! pid = Some pod →
  ∃ entry cgroup n,
    entry ∈ entries ∧ Os.IsDir entry = true
    ∧ Regexp.MatchString numberRegex (Os.Name entry) = true
    ∧ getProcessCgroup sys procfs (Os.Name entry) = Ok cgroup
    ∧ containerIds !! cgroup = Some pod
    ∧ Strconv.Atoi (Os.Name entry) = Ok n ∧ pid = uint32 n.
Proof.
  induction entries as [|entry entries IH] using rev_ind; [done|].
  rewrite foldl_app. cbn [foldl].
  set (m := foldl _ ∅ entries) in *.
  assert (Hkept : m !! pid = Some pod →
            ∃ entry0 cgroup n,
              entry0 ∈ entries ++ [entry] ∧ Os.IsDir entry0 = true
              ∧ Regexp.MatchString numberRegex (Os.Name entry0) = true
              ∧ getProcessCgroup sys procfs (Os.Name entry0) = Ok cgroup
              ∧ containerIds !! cgroup = Some pod
              ∧ Strconv.Atoi (Os.Name entry0) = Ok n ∧ pid = uint32 n).
  { intros (entry0 & cgroup & n & Hin & H)%IH. exists entry0, cgroup, n.
    split; [|done]. apply elem_of_app. by left. }
  destruct (Os.IsDir entry) eqn:Hdir; cbn [negb]; [|done].
  destruct (Regexp.MatchString numberRegex (Os.Name entry)) eqn:Hmatch;
    cbn [negb]; [|done].
  destruct (getProcessCgroup sys procfs (Os.Name entry)) as [cgroup|] eqn:Hcg;
    [|done].
  destruct (containerIds !! cgroup) as [pod'|] eqn:Hpod; [|done].
  destruct (Strconv.Atoi (Os.Name entry)) as [n|] eqn:Hn; [|done].
  destruct (decide (uint32 n = pid)) as [<-|Hne].
  - rewrite lookup_insert_eq. intros [= <-]. exists entry, cgroup, n.
    split; [|done]. apply elem_of_app. right. left.
  - by rewrite lookup_insert_ne.
Qed.

(** X4: every entry of the result of [findContainerPids] comes from the
    process table and the index: some directory of the listing whose name
    contains a digit has a cgroup file that resolves to an identifier of
    the index, the pod is the one filed under that identifier, and the
    PID is the name converted by [strconv.Atoi] and cut to 32 bits. *)
Theorem findContainerPids_sound sys procfs containerIds entries (pid : Z) pod :
  ReadDir sys procfs = Ok entries →
  (findContainerPids sys procfs containerIds).1 !! pid = Some pod →
  0 <= pid < 2 ^ 32
  ∧ ∃ entry cgroup n,
      entry ∈ entries ∧ Os.IsDir entry = true
      ∧ Regexp.MatchString numberRegex (Os.Name entry) = true
      ∧ getProcessCgroup sys procfs (Os.Name entry) = Ok cgroup
      ∧ containerIds !! cgroup = Some pod
      ∧ Strconv.Atoi (Os.Name entry) = Ok n ∧ pid = uint32 n.
Proof.
  intros Hdir. unfold findContainerPids. rewrite Hdir. cbn [fst].
  intros (entry & cgroup & n & H)%findContainerPids_loop_lookup.
  split; [|by exists entry, cgroup, n].
  destruct H as (_ & _ & _ & _ & _ & _ & ->). unfold uint32.
  apply Z.mod_pos_bound. lia.
Qed.

Lemma findContainerPids_sound_witness :
  let sys := system_of [dir "5"] [(cgroupFile "/proc" "5", str "0::/docker/abc123")] [] in
  let containerIds : gmap gostring V1.Pod :=
    {[ str "abc123" := pod_with "web" [str "docker://abc123"] ]} in
  0 <= 5 < 2 ^ 32
  ∧ ∃ entry cgroup n,
      entry ∈ [dir "5"] ∧ Os.IsDir entry = true
      ∧ Regexp.MatchString numberRegex (Os.Name entry) = true
      ∧ getProcessCgroup sys "/proc" (Os.Name entry) = Ok cgroup
      ∧ containerIds !! cgroup = Some (pod_with "web" [str "docker://abc123"])
      ∧ Strconv.Atoi (Os.Name entry) = Ok n ∧ 5 = uint32 n.
Proof.
  intros sys containerIds.
  apply (findContainerPids_sound sys "/proc" containerIds [dir "5"] 5
           (pod_with "web" [str "docker://abc123"])).
  - reflexivity.
  - vm_compute. reflexivity.
Defined.

(** X5: a directory of the listing whose name contains a digit and is
    accepted by [strconv.Atoi], and whose cgroup file resolves to an
    identifier of the index, has its PID (cut to 32 bits) in the result
    of [findContainerPids]. *)
Theorem findContainerPids_complete sys procfs containerIds entries entry cgroup
    pod n :
  ReadDir sys procfs = Ok entries →
  entry ∈ entries → Os.IsDir entry = true →
  Regexp.MatchString numberRegex (Os.Name entry) = true →
  getProcessCgroup sys procfs (Os.Name entry) = Ok cgroup →
  containerIds !! cgroup = Some pod →
  Strconv.Atoi (Os.Name entry) = Ok n →
  is_Some ((findContainerPids sys procfs containerIds).1 !! uint32 n).
Proof.
  intros Hread Hin Hdir Hmatch Hcg Hpod Hn.
  unfold findContainerPids. rewrite Hread. cbn [fst]. clear Hread.
  induction entries as [|entry' entries IH] using rev_ind;
    [by apply elem_of_nil in Hin|].
  rewrite foldl_app. cbn [foldl].
  set (m := foldl _ ∅ entries) in *.
  apply elem_of_app in Hin as [Hin| ->%list_elem_of_singleton].
  - specialize (IH Hin).
    destruct (Os.IsDir entry'); cbn [negb]; [|done].
    destruct (Regexp.MatchString numberRegex (Os.Name entry')); cbn [negb]; [|done].
    destruct (getProcessCgroup sys procfs (Os.Name entry')) as [cgroup'|]; [|done].
    destruct (containerIds !! cgroup') as [pod'|]; [|done].
    destruct (Strconv.Atoi (Os.Name entry')) as [n'|]; [|done].
    apply lookup_insert_is_Some'. by right.
  - rewrite Hdir, Hmatch, Hcg, Hpod, Hn. cbn [negb].
    rewrite lookup_insert_eq. by eexists.
Qed.

Lemma findContainerPids_complete_witness :
  is_Some
    ((findContainerPids
        (system_of [dir "1"; dir "5"]
           [(cgroupFile "/proc" "5", str "0::/docker/abc123")] [])
        "/proc" {[ str "abc123" := pod_with "web" [str "docker://abc123"] ]}).1
     !! uint32 5).
Proof.
  apply (findContainerPids_complete _ "/proc" _ [dir "1"; dir "5"] (dir "5")
           "abc123" (pod_with "web" [str "docker://abc123"]) 5).
  - reflexivity.
  - right. left.
  - reflexivity.
  - reflexivity.
  - reflexivity.
  - vm_compute. reflexivity.
  - reflexivity.
Defined.

(** X6: the PIDs that [findContainerPidsHost] returns are exactly those
    of the directories of the listing whose name contains a digit and is
    accepted by [strconv.Atoi] and, when a pattern is given, whose
    command line can be read and matches the pattern. *)
Theorem findContainerPidsHost_elements sys procfs cmdLineRegex entries (pid : Z) :
  ReadDir sys procfs = Ok entries →
  pid ∈ (findContainerPidsHost sys procfs cmdLineRegex).1
  ↔ ∃ entry n,
      entry ∈ entries ∧ Os.IsDir entry = true
      ∧ Regexp.MatchString numberRegex (Os.Name entry) = true
      ∧ Strconv.Atoi (Os.Name entry) = Ok n ∧ pid = uint32 n
      ∧ ∀ re, cmdLineRegex = Some re →
          ∃ cmdLine, GetProcCmdLine sys (Os.Name entry) = Ok cmdLine
                     ∧ Regexp.MatchString re cmdLine = true.
Proof.
  intros Hread. unfold findContainerPidsHost. rewrite Hread. cbn [fst]. clear Hread.
  induction entries as [|entry entries IH] using rev_ind.
  - cbn [foldl]. split; [by intros ?%elem_of_nil|].
    by intros (entry & n & ?%elem_of_nil & _).
  - rewrite foldl_app. cbn [foldl].
    set (result := foldl _ [] entries) in *.
    assert (Hold : pid ∈ result →
              ∃ entry0 n, entry0 ∈ entries ++ [entry] ∧ Os.IsDir entry0 = true
                ∧ Regexp.MatchString numberRegex (Os.Name entry0) = true
                ∧ Strconv.Atoi (Os.Name entry0) = Ok n ∧ pid = uint32 n
                ∧ ∀ re, cmdLineRegex = Some re →
                    ∃ cmdLine, GetProcCmdLine sys (Os.Name entry0) = Ok cmdLine
                               ∧ Regexp.MatchString re cmdLine = true).
    { intros (entry0 & n & Hin & H)%IH. exists entry0, n.
      split; [apply elem_of_app; by left|done]. }
    split.
    + destruct (Os.IsDir entry) eqn:Hdir; cbn [negb]; [|done].
      destruct (Regexp.MatchString numberRegex (Os.Name entry)) eqn:Hmatch;
        cbn [negb]; [|done].
      destruct (Strconv.Atoi (Os.Name entry)) as [n|] eqn:Hn; [|done].
      destruct cmdLineRegex as [re|].
      * destruct (GetProcCmdLine sys (Os.Name entry)) as [cmdLine|] eqn:Hcmd; [|done].
        destruct (Regexp.MatchString re cmdLine) eqn:Hre; cbn [negb]; [|done].
        intros [Hin| ->%list_elem_of_singleton]%elem_of_app; [by apply Hold|].
        exists entry, n. split; [apply elem_of_app; right; left|].
        repeat (split; [done|]). intros re' [= <-]. by exists cmdLine.
      * intros [Hin| ->%list_elem_of_singleton]%elem_of_app; [by apply Hold|].
        exists entry, n. split; [apply elem_of_app; right; left|].
        by repeat (split; [done|]).
    + intros (entry0 & n & [Hin| ->%list_elem_of_singleton]%elem_of_app
              & Hdir & Hmatch & Hn & -> & Hcmd).
      * assert (Hres : uint32 n ∈ result).
        { apply IH. by exists entry0, n. }
        destruct (Os.IsDir entry); cbn [negb]; [|done].
        destruct (Regexp.MatchString numberRegex (Os.Name entry)); cbn [negb]; [|done].
        destruct (Strconv.Atoi (Os.Name entry)) as [n'|]; [|done].
        destruct cmdLineRegex as [re|]; [|apply elem_of_app; by left].
        destruct (GetProcCmdLine sys (Os.Name entry)) as [cmdLine|]; [|done].
        destruct (Regexp.MatchString re cmdLine); cbn [negb]; [|done].
        apply elem_of_app; by left.
      * rewrite Hdir, Hmatch, Hn. cbn [negb].
        destruct cmdLineRegex as [re|]; [|apply elem_of_app; right; left].
        destruct (Hcmd re eq_refl) as (cmdLine & -> & ->). cbn [negb].
        apply elem_of_app; right; left.
Qed.

Lemma findContainerPidsHost_elements_witness :
  17 ∈ (findContainerPidsHost (system_of [dir "abc"; dir "17"] [] []) "/proc" None).1
  ↔ ∃ entry n,
      entry ∈ [dir "abc"; dir "17"] ∧ Os.IsDir entry = true
      ∧ Regexp.MatchString numberRegex (Os.Name entry) = true
      ∧ Strconv.Atoi (Os.Name entry) = Ok n ∧ 17 = uint32 n
      ∧ ∀ re, None = Some re →
          ∃ cmdLine,
            GetProcCmdLine (system_of [dir "abc"; dir "17"] [] []) (Os.Name entry)
              = Ok cmdLine
            ∧ Regexp.MatchString re cmdLine = true.
Proof.
  apply (findContainerPidsHost_elements (system_of [dir "abc"; dir "17"] [] [])
           "/proc" None [dir "abc"; dir "17"] 17).
  reflexivity.
Defined.

(** X7: a command-line pattern only removes PIDs: what
    [findContainerPidsHost] returns with a pattern is a sublist, in the
    same order, of what it returns without one. *)
Theorem findContainerPidsHost_pattern_sublist sys procfs re :
  (findContainerPidsHost sys procfs (Some re)).1
    `sublist_of` (findContainerPidsHost sys procfs None).1.
Proof.
  unfold findContainerPidsHost.
  destruct (ReadDir sys procfs) as [entries|]; cbn [fst]; [|done].
  induction entries as [|entry entries IH] using rev_ind; [done|].
  rewrite !foldl_app. cbn [foldl].
  destruct (Os.IsDir entry); cbn [negb]; [|done].
  destruct (Regexp.MatchString numberRegex (Os.Name entry)); cbn [negb]; [|done].
  destruct (Strconv.Atoi (Os.Name entry)) as [n|]; [|done].
  destruct (GetProcCmdLine sys (Os.Name entry)) as [cmdLine|];
    [|by apply sublist_inserts_r].
  destruct (Regexp.MatchString re cmdLine); cbn [negb].
  - by apply sublist_app.
  - by apply sublist_inserts_r.
Qed.
End enumerator_properties.

(** * Further properties of the reconciliation passes *)

Section reconciler_properties.
Implicit Types (sys : System) (engine : Engine) (order : RangeOrder)
  (tracer : Tracer) (h : list Call).

(** X8: a pass of [UpdateTargets] whose listing succeeds clears the
    targets once, first, and after that calls the engine only to
    register a discovered PID or to log an error: it registers no PID
    that [findContainerPids] did not return. *)
Theorem UpdateTargets_only_discovered sys engine order tracer pods entries h :
  range_order_ok order →
  ReadDir sys (procfs tracer) = Ok entries →
  ∃ new,
    (UpdateTargets sys engine order tracer pods h).2 = h ++ ClearPids :: new
    ∧ ∀ c, c ∈ new →
        (∃ pid,
           is_Some ((findContainerPids sys (procfs tracer)
                       (buildContainerIdsMap pods)).1 !! pid)
           ∧ (c = AddSSLLibPid (procfs tracer) pid ∨ c = AddGoPid (procfs tracer) pid))
        ∨ ∃ err, c = LogError err.
Proof.
  intros Horder Hdir. unfold UpdateTargets.
  assert (Herr : (findContainerPids sys (procfs tracer)
                    (buildContainerIdsMap pods)).2 = None)
    by (unfold findContainerPids; by rewrite Hdir).
  destruct (findContainerPids sys (procfs tracer) (buildContainerIdsMap pods))
    as [containerPids err]. cbn in Herr. subst err. cbn [fst].
  rewrite !bind_run. cbn [ret call fst snd].
  destruct (forEach_calls engine (procfs tracer) (order containerPids)
              (h ++ [ClearPids])) as (new & -> & Hnew & _).
  exists new. split; [by rewrite <- app_assoc|].
  intros c Hc. rewrite Forall_forall in Hnew.
  destruct (Hnew c Hc) as [(pid & Hpid & Hreg)|Hlog]; [|by right].
  left. exists pid. split; [|done].
  rewrite (Horder containerPids) in Hpid.
  apply list_elem_of_fmap in Hpid as ([pid' pod] & -> & Hin).
  apply elem_of_map_to_list in Hin. by exists pod.
Qed.

Lemma UpdateTargets_only_discovered_witness :
  let sys :=
    system_of [dir "5"; dir "abc"]
      [(cgroupFile "/proc" "5", str "0::/docker/abc123")] [] in
  let tracer := {| procfs := "/proc" |} in
  let pods := [pod_with "web" [str "docker://abc123"]] in
  ∃ new,
    (UpdateTargets sys (engine_refusing (λ _, true)) listed_order tracer pods []).2
    = [] ++ ClearPids :: new
    ∧ ∀ c, c ∈ new →
        (∃ pid,
           is_Some ((findContainerPids sys (procfs tracer)
                       (buildContainerIdsMap pods)).1 !! pid)
           ∧ (c = AddSSLLibPid (procfs tracer) pid ∨ c = AddGoPid (procfs tracer) pid))
        ∨ ∃ err, c = LogError err.
Proof.
  intros sys tracer pods.
  apply (UpdateTargets_only_discovered sys (engine_refusing (λ _, true))
           listed_order tracer pods [dir "5"; dir "abc"] []).
  - intros m. reflexivity.
  - reflexivity.
Defined.

(** X9: when the process table cannot be listed, both passes return the
    error of [os.ReadDir] and make no call at all: the targets are not
    cleared. *)
Theorem UpdateTargets_listing_failure sys engine order tracer pods cmdLineRegex
    err h :
  ReadDir sys (procfs tracer) = Err err →
  UpdateTargets sys engine order tracer pods h = (Some (OsError err), h)
  ∧ UpdateTargetsHost sys engine tracer cmdLineRegex h = (Some (OsError err), h).
Proof.
  intros Hdir. unfold UpdateTargets, UpdateTargetsHost, findContainerPids,
    findContainerPidsHost. by rewrite Hdir.
Qed.

Lemma UpdateTargets_listing_failure_witness :
  let sys :=
    {| ReadDir := λ path, Err (Os.PathError "open" path);
       ReadFile := λ path, Err (Os.PathError "open" path);
       Getenv := λ _, [];
       Getpagesize := 4096;
       GetProcCmdLine := λ pid, Err (Os.PathError "open" pid);
       GetTargetedPods := [] |} in
  UpdateTargets sys (engine_refusing (λ _, false)) listed_order
    {| procfs := "/proc" |} [pod_with "web" [str "docker://abc123"]] [ClearPids]
  = (Some (OsError (Os.PathError "open" "/proc")), [ClearPids])
  ∧ UpdateTargetsHost sys (engine_refusing (λ _, false)) {| procfs := "/proc" |}
      None [ClearPids]
    = (Some (OsError (Os.PathError "open" "/proc")), [ClearPids]).
Proof.
  intros sys.
  apply (UpdateTargets_listing_failure sys (engine_refusing (λ _, false))
           listed_order {| procfs := "/proc" |}
           [pod_with "web" [str "docker://abc123"]] None
           (Os.PathError "open" "/proc") [ClearPids]).
  reflexivity.
Defined.

(** X10: a host pass whose listing succeeds returns no error, clears
    the targets once, first, attempts both registrations for every PID
    that [findContainerPidsHost] returned, whatever the engine answers,
    and registers no other PID. *)
Theorem UpdateTargetsHost_registers_exactly sys engine tracer cmdLineRegex
    entries h :
  ReadDir sys (procfs tracer) = Ok entries →
  (UpdateTargetsHost sys engine tracer cmdLineRegex h).1 = None
  ∧ ∃ new,
      (UpdateTargetsHost sys engine tracer cmdLineRegex h).2 = h ++ ClearPids :: new
      ∧ (∀ pid,
           pid ∈ (findContainerPidsHost sys (procfs tracer) cmdLineRegex).1 →
           AddSSLLibPid (procfs tracer) pid ∈ new
           ∧ AddGoPid (procfs tracer) pid ∈ new)
      ∧ Forall (registration_of (procfs tracer)
                  (findContainerPidsHost sys (procfs tracer) cmdLineRegex).1) new.
Proof.
  intros Hdir. unfold UpdateTargetsHost.
  assert (Herr : (findContainerPidsHost sys (procfs tracer) cmdLineRegex).2 = None)
    by (unfold findContainerPidsHost; by rewrite Hdir).
  destruct (findContainerPidsHost sys (procfs tracer) cmdLineRegex)
    as [hostPids err]. cbn in Herr. subst err. cbn [fst].
  rewrite !bind_run. cbn [ret call fst snd]. split; [done|].
  destruct (forEach_calls engine (procfs tracer) hostPids (h ++ [ClearPids]))
    as (new & -> & Hnew & Hall).
  exists new. split; [by rewrite <- app_assoc|]. by split.
Qed.

Lemma UpdateTargetsHost_registers_exactly_witness :
  let sys := system_of [dir "5"; dir "abc"; dir "6"] [] [] in
  let engine :=
    engine_refusing (λ c, match c with AddGoPid _ _ => true | _ => false end) in
  let tracer := {| procfs := "/proc" |} in
  (UpdateTargetsHost sys engine tracer None []).1 = None
  ∧ ∃ new,
      (UpdateTargetsHost sys engine tracer None []).2 = [] ++ ClearPids :: new
      ∧ (∀ pid,
           pid ∈ (findContainerPidsHost sys (procfs tracer) None).1 →
           AddSSLLibPid (procfs tracer) pid ∈ new
           ∧ AddGoPid (procfs tracer) pid ∈ new)
      ∧ Forall (registration_of (procfs tracer)
                  (findContainerPidsHost sys (procfs tracer) None).1) new.
Proof.
  intros sys engine tracer.
  apply (UpdateTargetsHost_registers_exactly sys engine tracer None
           [dir "5"; dir "abc"; dir "6"] []).
  reflexivity.
Defined.

(** With an empty index no process is kept. *)
Lemma findContainerPids_empty_index sys procfs :
  (findContainerPids sys procfs ∅).1 = ∅.
Proof.
  unfold findContainerPids. destruct (ReadDir sys procfs) as [entries|]; [|done].
  cbn [fst]. induction entries as [|entry entries IH] using rev_ind; [done|].
  rewrite foldl_app, IH. cbn [foldl].
  destruct (Os.IsDir entry); cbn [negb]; [|done].
  destruct (Regexp.MatchString numberRegex (Os.Name entry)); cbn [negb]; [|done].
  destruct (getProcessCgroup sys procfs (Os.Name entry)) as [cgroup|]; [|done].
  by rewrite lookup_empty.
Qed.

(** X11: when no pod of the list carries a container status (an empty
    list in particular) and the listing succeeds, [UpdateTargets] clears
    the targets and registers nothing. *)
Theorem UpdateTargets_no_containers sys engine order tracer pods entries h :
  range_order_ok order →
  ReadDir sys (procfs tracer) = Ok entries →
  Forall (λ pod, V1.ContainerStatuses (V1.Status pod) = []) pods →
  UpdateTargets sys engine order tracer pods h = (None, h ++ [ClearPids]).
Proof.
  intros Horder Hdir Hpods.
  assert (Hindex : buildContainerIdsMap pods = ∅).
  { unfold buildContainerIdsMap.
    induction Hpods as [|pod pods Hpod Hpods IH]; [done|].
    cbn [foldl]. by rewrite Hpod. }
  unfold UpdateTargets. rewrite Hindex.
  pose proof (findContainerPids_empty_index sys (procfs tracer)) as Hempty.
  assert (Herr : (findContainerPids sys (procfs tracer) ∅).2 = None)
    by (unfold findContainerPids; by rewrite Hdir).
  destruct (findContainerPids sys (procfs tracer) ∅) as [containerPids err].
  cbn in Hempty, Herr. subst.
  assert (order ∅ = []) as ->.
  { apply Permutation_nil_r. rewrite (Horder ∅). by rewrite map_to_list_empty. }
  by rewrite !bind_run.
Qed.

Lemma UpdateTargets_no_containers_witness :
  UpdateTargets (system_of [dir "5"] [(cgroupFile "/proc" "5", str "0::/docker/abc123")] [])
    (engine_refusing (λ _, false)) listed_order {| procfs := "/proc" |}
    [pod_with "pending" []] [AddGoPid "/proc" 5]
  = (None, [AddGoPid "/proc" 5] ++ [ClearPids]).
Proof.
  apply (UpdateTargets_no_containers _ _ listed_order {| procfs := "/proc" |}
           [pod_with "pending" []] [dir "5"] [AddGoPid "/proc" 5]).
  - intros m. reflexivity.
  - reflexivity.
  - by repeat constructor.
Defined.
End reconciler_properties.

(** * Further properties of the cgroup path normalizer *)

Section normalizer_properties.
Import GoStrings GoPath.
Implicit Types (s t sub line : gostring) (c x : ascii) (sys : System).

(** X12: a cgroup file of more than one line, none of which mentions
    the [pids] controller, is refused with "Cgroup path not found".
    Every file of the unified hierarchy alone is of this kind once it
    ends with a newline. *)
Theorem getProcessCgroup_no_pids_line sys procfs pid bytes :
  ReadFile sys (cgroupFile procfs pid) = Ok bytes →
  "010"%char ∈ bytes →
  Contains bytes ":pids:" = false →
  getProcessCgroup sys procfs pid
  = Err (ErrCgroupPathNotFound pid (Split bytes newline)).
Proof.
  intros Hread Hnl Hpids. unfold getProcessCgroup. rewrite Hread.
  assert (extractCgroup (Split bytes newline) = []) as ->; [|done].
  by apply extractCgroup_no_pids.
Qed.

Lemma getProcessCgroup_no_pids_line_witness :
  getProcessCgroup (one_process ("0::/kubepods/besteffort/podu/abc123" ++ newline))
    "/proc" "1"
  = Err (ErrCgroupPathNotFound "1"
           (Split ("0::/kubepods/besteffort/podu/abc123" ++ newline) newline)).
Proof.
  apply (getProcessCgroup_no_pids_line
           (one_process ("0::/kubepods/besteffort/podu/abc123" ++ newline))
           "/proc" "1" ("0::/kubepods/besteffort/podu/abc123" ++ newline)).
  - reflexivity.
  - apply elem_of_app. right. left.
  - reflexivity.
Defined.

(** The path [extractCgroup] returns is empty or what follows the last
    ':' of one of the lines. *)
Lemma extractCgroup_of_line lines :
  extractCgroup lines = []
  ∨ ∃ line, line ∈ lines ∧ extractCgroup lines = last_part (Split line ":").
Proof.
  unfold extractCgroup. destruct (Z.eqb_spec (len lines) 1) as [E|_].
  - destruct lines as [|line [|line' lines]]; unfold len in E; simpl in E; try lia.
    right. exists line. split; [left|done].
  - induction lines as [|line lines IH]; [by left|].
    cbn [extractCgroup_scan]. destruct (Contains line ":pids:").
    + right. exists line. split; [left|done].
    + destruct IH as [IH|(line' & Hin & IH)]; [by left|].
      right. exists line'. split; [by right|done].
Qed.

(** X13: the identifier [getProcessCgroup] returns holds no ':' and no
    newline: it is cut out of one line of the file, after the last ':'
    of that line. *)
Theorem getProcessCgroup_one_field sys procfs pid id :
  getProcessCgroup sys procfs pid = Ok id →
  (":"%char ∉ id) ∧ ("010"%char ∉ id).
Proof.
  unfold getProcessCgroup.
  destruct (ReadFile sys (cgroupFile procfs pid)) as [bytes|]; [|done].
  set (path0 := extractCgroup (Split bytes newline)).
  assert (Hpath0 : (":"%char ∉ path0) ∧ ("010"%char ∉ path0)).
  { subst path0. destruct (extractCgroup_of_line (Split bytes newline))
      as [->|(line & Hline & ->)]; [split; apply not_elem_of_nil|].
    change (str ":") with [":"%char]. split; [apply last_part_Split_free|].
    intros Hin%elem_of_last_part_Split.
    destruct (Split_byte_pieces bytes "010"%char) as [Hall _].
    rewrite Forall_forall in Hall. by destruct (Hall line Hline). }
  set (path := if Contains path0 "-" then last_part (Split path0 "-") else path0).
  assert (Hpath : ∀ x, x ∈ path → x ∈ path0).
  { subst path. destruct (Contains path0 "-"); [|done].
    intros x. change (str "-") with ["-"%char]. apply elem_of_last_part_Split. }
  case_bool_decide; [done|]. intros [= <-].
  destruct Hpath0 as [Hcolon Hnl].
  split; intros [Hin|[Hin|Hin]]%elem_of_normalizeCgroup; try done;
    by apply Hpath in Hin.
Qed.

Lemma getProcessCgroup_one_field_witness :
  (":"%char ∉ str "abc") ∧ ("010"%char ∉ str "abc").
Proof.
  apply (getProcessCgroup_one_field
           (one_process "0::/system.slice/docker-abc.scope") "/proc" "1").
  reflexivity.
Defined.

Lemma Base_one_segment path : Base path = str "/" ∨ "/"%char ∉ Base path.
Proof.
  unfold Base. case_bool_decide; [right; by intros ?%list_elem_of_singleton|].
  set (stripped := stripTrailingSlashes path).
  change (str "/") with ["/"%char].
  destruct (decide ("/"%char ∈ stripped)) as [Hin|Hout].
  - apply list_elem_of_split_r in Hin as (a & b & -> & Hb).
    rewrite LastIndex_byte_last by done.
    pose proof (len_nonneg a). destruct (Z.leb_spec 0 (len a)); [|lia].
    replace (a ++ "/"%char :: b) with ((a ++ ["/"%char]) ++ b)
      by (by rewrite <- app_assoc).
    replace (len a + 1) with (len (a ++ ["/"%char]))
      by (rewrite len_app; reflexivity).
    rewrite from_app_len. case_bool_decide; [by left|by right].
  - rewrite LastIndex_byte_absent by done. cbn [Z.leb].
    case_bool_decide; [by left|by right].
Qed.

(** X14: [normalizeCgroup] returns one path segment: its result is "/"
    (for a path made of slashes) or holds no '/'. *)
Theorem normalizeCgroup_one_segment path :
  normalizeCgroup path = str "/" ∨ "/"%char ∉ normalizeCgroup path.
Proof.
  unfold normalizeCgroup. destruct (Base_one_segment path) as [->|Hbase].
  - by left.
  - right. intros Hin. apply Hbase, elem_of_TrimSpace.
    apply elem_of_normalizeCgroup_dash.
    destruct (Contains _ _); [by eapply elem_of_TrimSuffix|done].
Qed.

(** X15: the systemd shapes of the comment above [normalizeCgroup]: for
    a path that ends in "/<runtime>-<ID>.scope", where <runtime> is made
    of letters and digits and <ID> holds no '/', [normalizeCgroup] alone
    returns <ID>, dashes and dots of <ID> included. *)
Theorem normalizeCgroup_runtime_scope dir runtime ID :
  runtime ≠ [] → forallb is_alnum runtime = true → none_of "/" ID = true →
  normalizeCgroup (dir ++ "/" ++ runtime ++ "-" ++ ID ++ ".scope") = ID.
Proof.
  intros Hne Hrt HID. unfold normalizeCgroup.
  assert (Hslash : "/"%char ∉ runtime ++ "-" ++ ID ++ ".scope").
  { rewrite !not_elem_of_app. split; [by apply alnum_not_elem|].
    split; [by intros ?%list_elem_of_singleton|].
    split; [eapply none_of_elem; [done|left]|].
    cbn [str list_ascii_of_string]. rewrite !not_elem_of_cons.
    repeat (split; [discriminate|]). apply not_elem_of_nil. }
  change (dir ++ "/" ++ runtime ++ "-" ++ ID ++ ".scope")
    with (dir ++ "/"%char :: (runtime ++ "-" ++ ID ++ ".scope")).
  rewrite Base_segment; [|by destruct runtime|done].
  assert (TrimSpace (runtime ++ "-" ++ ID ++ ".scope")
          = runtime ++ "-" ++ ID ++ ".scope") as ->.
  { destruct runtime as [|x runtime']; [done|].
    replace ((x :: runtime') ++ "-" ++ ID ++ ".scope")
      with (((x :: runtime') ++ "-" ++ ID ++ ".scop") ++ ["e"%char])
      by (by rewrite <- !app_assoc).
    apply (TrimSpace_solid_ends x); [|reflexivity|by eexists].
    cbn [forallb] in Hrt. apply andb_true_iff in Hrt as [Hx _].
    by apply alnum_solid. }
  unfold normalizeCgroup_dash.
  change (str "-") with ["-"%char]. cbn [app].
  rewrite Contains_byte_true by (apply elem_of_app; right; left).
  rewrite Index_byte_first by (by apply alnum_not_elem).
  replace (runtime ++ "-"%char :: ID ++ ".scope")
    with ((runtime ++ ["-"%char]) ++ ID ++ ".scope") by (by rewrite <- app_assoc).
  replace (len runtime + 1) with (len (runtime ++ ["-"%char]))
    by (rewrite len_app; reflexivity).
  rewrite from_app_len.
  change (str ".") with ["."%char].
  rewrite Contains_byte_true by (apply elem_of_app; right; left).
  by rewrite Ext_scope, TrimSuffix_app.
Qed.

Lemma normalizeCgroup_runtime_scope_witness :
  normalizeCgroup ("/system.slice" ++ "/" ++ "containerd" ++ "-" ++ "7709c1d5-447c.v2"
                   ++ ".scope")
  = str "7709c1d5-447c.v2".
Proof.
  apply (normalizeCgroup_runtime_scope "/system.slice" "containerd" "7709c1d5-447c.v2");
    [discriminate|reflexivity|reflexivity].
Defined.
End normalizer_properties.

(** * Further properties of start-up *)

Section startup_properties.
Implicit Types (sys : System) (engine : Engine) (h : list Call).

(** X16: [createTracer] stops at the first call that fails: every call
    it makes but the last was answered [nil], and the error it returns
    is the answer to the last call it made. *)
Theorem createTracer_stops_at_first_error sys engine procfs_flag h :
  ∃ new last,
    (createTracer sys engine procfs_flag h).2 = h ++ new ++ [last]
    ∧ (createTracer sys engine procfs_flag h).1.2 = engine (h ++ new) last
    ∧ ∀ i c, new !! i = Some c → engine (h ++ take i new) c = None.
Proof.
  unfold createTracer.
  set (init := Init _ _ _). set (discover := updateTargets _).
  set (ssl := globalSSLLibTarget _ _). set (go := globalGoTarget _ _).
  assert (Hdone : ∀ new last err,
            engine (h ++ new) last = err →
            (∀ i c, new !! i = Some c → engine (h ++ take i new) c = None) →
            ∃ new' last',
              h ++ new ++ [last] = h ++ new' ++ [last']
              ∧ err = engine (h ++ new') last'
              ∧ ∀ i c, new' !! i = Some c → engine (h ++ take i new') c = None)
    by (intros new last err <- Hnew; by exists new, last).
  rewrite bind_run. cbn [call fst snd].
  destruct (engine h init) as [err|] eqn:Hinit.
  { cbn [ret fst snd]. apply (Hdone [] init); [by rewrite app_nil_r|].
    by intros [|i] c. }
  rewrite bind_run. cbn [call fst snd].
  assert (H0 : ∀ i c, [init] !! i = Some c → engine (h ++ take i [init]) c = None).
  { intros [|[|i]] c; cbn; [|done..]. intros [= <-]. by rewrite app_nil_r. }
  destruct (engine (h ++ [init]) discover) as [err|] eqn:Hdiscover.
  { cbn [ret fst snd]. rewrite <- app_assoc. by apply (Hdone [init] discover). }
  assert (H1 : ∀ i c, [init; discover] !! i = Some c →
            engine (h ++ take i [init; discover]) c = None).
  { intros [|[|[|i]]] c; cbn; try done; intros [= <-];
      [by rewrite app_nil_r|done]. }
  case_bool_decide as Hssl; cbn [negb].
  - rewrite bind_run. cbn [ret fst snd].
    case_bool_decide as Hgo; cbn [negb].
    + rewrite bind_run. cbn [ret fst snd]. rewrite <- app_assoc.
      by apply (Hdone [init] discover).
    + rewrite !bind_run. cbn [call ret fst snd]. rewrite <- !app_assoc. cbn [app].
      by apply (Hdone [init; discover] go).
  - rewrite bind_run. cbn [call fst snd]. rewrite <- !app_assoc. cbn [app].
    destruct (engine (h ++ [init; discover]) ssl) as [err|] eqn:Hlib.
    { cbn [ret fst snd]. by apply (Hdone [init; discover] ssl). }
    case_bool_decide as Hgo; cbn [negb].
    + rewrite bind_run. cbn [ret fst snd].
      by apply (Hdone [init; discover] ssl).
    + rewrite !bind_run. cbn [call ret fst snd]. rewrite <- !app_assoc. cbn [app].
      apply (Hdone [init; discover; ssl] go); [done|].
      intros [|[|[|[|i]]]] c; cbn; try done; intros [= <-];
        [by rewrite app_nil_r|done|done].
Qed.

(** X17: the calls of [createTracer] are [Init], [updateTargets] and the
    registrations of the global targets, and a global target is
    registered only when its environment variable is not empty; with
    both variables unset no global target is registered. *)
Theorem createTracer_calls sys engine procfs_flag h :
  ∃ new,
    (createTracer sys engine procfs_flag h).2 = h ++ new
    ∧ Forall (λ c,
        c = Init (Getpagesize sys * 100) (Getpagesize sys) procfs_flag
        ∨ c = updateTargets (GetTargetedPods sys)
        ∨ (c = globalSSLLibTarget procfs_flag (Getenv sys "KUBESHARK_GLOBAL_LIBSSL_PID")
           ∧ Getenv sys "KUBESHARK_GLOBAL_LIBSSL_PID" ≠ [])
        ∨ (c = globalGoTarget procfs_flag (Getenv sys "KUBESHARK_GLOBAL_GOLANG_PID")
           ∧ Getenv sys "KUBESHARK_GLOBAL_GOLANG_PID" ≠ [])) new.
Proof.
  unfold createTracer.
  set (init := Init _ _ _). set (discover := updateTargets _).
  rewrite bind_run. cbn [call fst snd].
  destruct (engine h init) as [err|].
  { exists [init]. split; [done|]. apply Forall_cons. split; [by left|done]. }
  rewrite bind_run. cbn [call fst snd].
  destruct (engine (h ++ [init]) discover) as [err|].
  { exists [init; discover]. cbn [ret snd]. rewrite <- ?app_assoc.
    split; [done|]. repeat (apply Forall_cons; split); auto. }
  case_bool_decide as Hssl; cbn [negb].
  - rewrite bind_run. cbn [ret fst snd].
    case_bool_decide as Hgo; cbn [negb].
    + rewrite bind_run. cbn [ret fst snd].
      exists [init; discover]. rewrite <- ?app_assoc.
      split; [done|]. repeat (apply Forall_cons; split); auto.
    + rewrite !bind_run. cbn [call ret fst snd]. rewrite <- !app_assoc. cbn [app].
      eexists [init; discover; _]. split; [done|].
      repeat (apply Forall_cons; split); auto.
  - rewrite bind_run. cbn [call fst snd]. rewrite <- !app_assoc. cbn [app].
    destruct (engine (h ++ [init; discover]) _) as [err|].
    { eexists [init; discover; _]. cbn [ret snd]. rewrite <- ?app_assoc.
      split; [done|]. repeat (apply Forall_cons; split); auto. }
    case_bool_decide as Hgo; cbn [negb].
    + rewrite bind_run. cbn [ret fst snd].
      eexists [init; discover; _]. rewrite <- ?app_assoc.
      split; [done|]. repeat (apply Forall_cons; split); auto.
    + rewrite !bind_run. cbn [call ret fst snd]. rewrite <- !app_assoc. cbn [app].
      eexists [init; discover; _; _]. split; [done|].
      repeat (apply Forall_cons; split); auto 6.
Qed.
End startup_properties.
